(** * IvyEngine (src/lib/engine.ts): permission check, git version queries,
      self-update and the start-up sequence.

    The TypeScript class is embedded shallowly.  JavaScript strings are
    modelled as [string] (code units in the Latin-1 range), [null] and
    [undefined] as [None], a thrown value or a rejected promise as a
    constructor of [Outcome].  A call of [spawn] is a call of an oracle that
    is a parameter of the development: in the module [Ivy] an oracle whose
    processes all exit, in the module [Live] one whose processes may also
    end without an exit event, which leaves the awaiting code pending. *)

From Stdlib Require Import String Ascii List Bool Arith ZArith Lia.
Import ListNotations.
Open Scope string_scope.
Open Scope nat_scope.

(** ** The JavaScript string primitives the engine uses *)

Module Js.

(** White space and line terminators of ECMAScript, below code unit 256:
    TAB, LF, VT, FF, CR, SP and NBSP. *)
Definition is_space (c : ascii) : bool :=
  let n := nat_of_ascii c in
  ((9 <=? n) && (n <=? 13)) || (n =? 32) || (n =? 160).

Definition is_digit (c : ascii) : bool :=
  let n := nat_of_ascii c in (48 <=? n) && (n <=? 57).

Definition is_upper (c : ascii) : bool :=
  let n := nat_of_ascii c in (65 <=? n) && (n <=? 90).

Definition is_lower (c : ascii) : bool :=
  let n := nat_of_ascii c in (97 <=? n) && (n <=? 122).

(** The class [\w]: [A-Za-z0-9_]. *)
Definition is_word (c : ascii) : bool :=
  is_digit c || is_upper c || is_lower c || (nat_of_ascii c =? 95).

(** The class [[0-9a-f]]. *)
Definition is_hex (c : ascii) : bool :=
  let n := nat_of_ascii c in
  is_digit c || ((97 <=? n) && (n <=? 102)).

(** [String.prototype.trim]. *)
Fixpoint trimStart (s : string) : string :=
  match s with
  | String c s' => if is_space c then trimStart s' else s
  | EmptyString => EmptyString
  end.

Fixpoint trimEnd (s : string) : string :=
  match s with
  | EmptyString => EmptyString
  | String c s' =>
      match trimEnd s' with
      | EmptyString => if is_space c then EmptyString else String c EmptyString
      | t => String c t
      end
  end.

Definition trim (s : string) : string := trimEnd (trimStart s).

(** [Array.prototype.join('')]. *)
Definition join (l : list string) : string := String.concat "" l.

(** [String.prototype.split(sep)] for a separator of one character.  The
    result always has at least one element: [''.split(' ')] is [['']]. *)
Fixpoint split (sep : ascii) (s : string) : list string :=
  match s with
  | EmptyString => [EmptyString]
  | String c s' =>
      if Ascii.eqb c sep then EmptyString :: split sep s'
      else match split sep s' with
           | h :: t => String c h :: t
           | [] => [String c EmptyString]
           end
  end.

(** [s.substring(a, b)]: the code units from [min a b] up to [max a b],
    clamped to the length of [s]. *)
Definition substring (a b : nat) (s : string) : string :=
  String.substring (Nat.min a b) (Nat.max a b - Nat.min a b) s.

(** [s.substr(a, n)] for a start [a] that is not negative. *)
Definition substr (a n : nat) (s : string) : string :=
  String.substring a n s.

(** [s.startsWith(p)]. *)
Definition startsWith (p s : string) : bool := String.prefix p s.

(** [String.prototype.toLowerCase] on the Latin-1 range: [A-Z] and the
    accented capitals U+00C0..U+00DE (U+00D7, the multiplication sign,
    apart) move up by 32. *)
Definition lower_char (c : ascii) : ascii :=
  let n := nat_of_ascii c in
  if is_upper c || ((192 <=? n) && (n <=? 222) && negb (n =? 215))
  then ascii_of_nat (n + 32) else c.

Fixpoint toLowerCase (s : string) : string :=
  match s with
  | EmptyString => EmptyString
  | String c s' => String (lower_char c) (toLowerCase s')
  end.

(** [!s] for a string: only the empty string is falsy. *)
Definition falsy (s : string) : bool :=
  match s with EmptyString => true | _ => false end.

(** [ToString] of a value of type [string | null], as [RegExp.test]
    applies it to its argument. *)
Definition ToString (v : option string) : string :=
  match v with Some s => s | None => "null" end.

(** [ToString] of a value of type [string | undefined]: an optional
    field read in a template literal or handed to [RegExp.test]. *)
Definition ToStringU (v : option string) : string :=
  match v with Some s => s | None => "undefined" end.

(** [!!v] for a value of type [string | undefined]. *)
Definition truthy (v : option string) : bool :=
  match v with Some s => negb (falsy s) | None => false end.

Definition TAB : string := String (ascii_of_nat 9) EmptyString.
Definition LF : string := String (ascii_of_nat 10) EmptyString.

(** Every character of [s] is in the class [p]. *)
Fixpoint all_chars (p : ascii -> bool) (s : string) : bool :=
  match s with
  | EmptyString => true
  | String c s' => p c && all_chars p s'
  end.

(** The character [c] occurs in [s]. *)
Fixpoint occurs (c : ascii) (s : string) : bool :=
  match s with
  | EmptyString => false
  | String a s' => Ascii.eqb a c || occurs c s'
  end.

(** *** Regular expressions

    The fragment the engine's two patterns are written in, matched by
    backtracking with a continuation.  [prev] is the character before
    the current position; the assertion [\b] needs it. *)
Inductive regex : Type :=
| Class (p : ascii -> bool)
| Repeat (p : ascii -> bool) (lo : nat) (hi : option nat)
| WordBoundary
| Seq (r1 r2 : regex).

Definition Cont : Type := option ascii -> string -> bool.

Definition can_take (hi : option nat) : bool :=
  match hi with Some 0 => false | _ => true end.

Definition one_less (hi : option nat) : option nat := option_map pred hi.

(** [p{lo,hi}]: between [lo] and [hi] characters of the class [p], the
    longest run first. *)
Fixpoint repeat_m (p : ascii -> bool) (lo : nat) (hi : option nat)
         (k : Cont) (prev : option ascii) (s : string) {struct s} : bool :=
  let stop := (lo =? 0) && k prev s in
  match s with
  | String c s' =>
      if p c && can_take hi
      then repeat_m p (pred lo) (one_less hi) k (Some c) s' || stop
      else stop
  | EmptyString => stop
  end.

Definition word_at (c : option ascii) : bool :=
  match c with Some a => is_word a | None => false end.

Definition next_char (s : string) : option ascii :=
  match s with String c _ => Some c | EmptyString => None end.

Fixpoint matches (r : regex) (k : Cont) (prev : option ascii) (s : string)
  : bool :=
  match r with
  | Class p =>
      match s with
      | String c s' => p c && k (Some c) s'
      | EmptyString => false
      end
  | Repeat p lo hi => repeat_m p lo hi k prev s
  | WordBoundary => xorb (word_at prev) (word_at (next_char s)) && k prev s
  | Seq r1 r2 => matches r1 (matches r2 k) prev s
  end.

Definition accept : Cont := fun _ _ => true.

(** A pattern without the [g] or [y] flag is tried at every position, from
    the left. *)
Fixpoint search (r : regex) (prev : option ascii) (s : string) : bool :=
  matches r accept prev s
  || match s with
     | String c s' => search r (Some c) s'
     | EmptyString => false
     end.

(** [RegExp.prototype.test]. *)
Definition test (r : regex) (s : string) : bool := search r None s.

End Js.

(** ** The engine *)

Module Ivy.
Import Js.

(** *** Collaborators that are not part of the engine *)

(** discord.js: a user, a guild member and a guild.  [Guild.member]
    answers [null] for a user the guild does not know. *)
Record User := { user_id : string }.
Record GuildMember := { hasPermission : Z -> bool }.
Record Guild := { member : User -> option GuildMember }.

(** What the engine has seen of a child process when its [exit] event
    arrives: the chunks of the [data] events of each stream, in order, and
    the code of the [exit] event ([null] when a signal ended the
    process).  A process that ends without an exit event leaves the
    promise of [execGit] pending; the module [Live] below has those runs
    too, and this module holds the runs in which every process exits. *)
Record ProcessRun := {
  stdout_data : list string;
  stderr_data : list string;
  exit_code : option Z
}.

(** The fields of [IvyEngineOptions] the modelled methods read. *)
Record IvyEngineOptions := {
  token : string;
  name : string;
  gitRepo : option string;
  superPerms : list string
}.

Record IvyEngine := {
  opts : IvyEngineOptions;
  vcsEnabled : bool
}.

(** [/\b[0-9a-f]{5,40}\b/] *)
Definition HASH_PATTERN : regex :=
  Seq WordBoundary (Seq (Repeat is_hex 5 (Some 40)) WordBoundary).

(** [/\w+\/\w+/] *)
Definition GIT_REPO_PATTERN : regex :=
  Seq (Repeat is_word 1 None)
      (Seq (Class (Ascii.eqb "/")) (Repeat is_word 1 None)).

(** The part of the constructor that settles [vcsEnabled]
    (engine.ts, lines 93 to 96). *)
Definition init_vcsEnabled (o : IvyEngineOptions) : bool :=
  let enabled := truthy (gitRepo o) in
  if enabled && negb (test GIT_REPO_PATTERN (ToStringU (gitRepo o)))
  then false
  else enabled.

Definition new_IvyEngine (o : IvyEngineOptions) : IvyEngine :=
  {| opts := o; vcsEnabled := init_vcsEnabled o |}.

(** *** Results of calls *)

Inductive Thrown : Type :=
| TypeError (msg : string)     (* raised by the runtime *)
| Reason (text : string)       (* a promise rejected with a string *)
| Raised (text : string).      (* thrown by the caller's own code *)

Inductive Outcome (A : Type) : Type :=
| Ok (a : A)
| Throw (e : Thrown).
Arguments Ok {A} a.
Arguments Throw {A} e.

(** *** [has] *)

(** [has] (engine.ts, lines 179 to 187):
    [guild.member(user).hasPermission(permission)
      || this.opts.superPerms.some(id => user.id === id)].
    The left operand is evaluated first; a method call on [null] throws. *)
Definition has (e : IvyEngine) (user : User) (permission : Z) (guild : Guild)
  : Outcome bool :=
  match member guild user with
  | None => Throw (TypeError "Cannot read property 'hasPermission' of null")
  | Some m =>
      Ok (hasPermission m permission
          || existsb (fun id => String.eqb (user_id user) id)
                     (superPerms (opts e)))
  end.

(** *** The git subsystem *)

Inductive Event : Type :=
| Spawn (command : string) (args : list string)
| Called (version : string).

Section Git.

(** The state of everything outside the process (working tree, remote),
    and what [spawn] does with it. *)
Variable Repo : Type.
Variable spawn : string -> list string -> Repo -> ProcessRun * Repo.

(** An asynchronous computation: it ends fulfilled or rejected, leaves
    the outside world in a new state, and has performed some events. *)
Definition M (A : Type) : Type := Repo -> Outcome A * Repo * list Event.

Definition ret {A} (a : A) : M A := fun r => (Ok a, r, []).

Definition throw {A} (e : Thrown) : M A := fun r => (Throw e, r, []).

Definition bind {A B} (m : M A) (f : A -> M B) : M B :=
  fun r =>
    match m r with
    | (Ok a, r1, t1) =>
        let '(o, r2, t2) := f a r1 in (o, r2, (t1 ++ t2)%list)
    | (Throw e, r1, t1) => (Throw e, r1, t1)
    end.

Notation "x <- m ;; k" := (bind m (fun x => k))
  (at level 61, m at next level, right associativity).

(** [p.catch(err => null)] *)
Definition catch_null (m : M string) : M (option string) :=
  fun r =>
    match m r with
    | (Ok a, r1, t1) => (Ok (Some a), r1, t1)
    | (Throw _, r1, t1) => (Ok None, r1, t1)
    end.

(** [execGit] (lines 193 to 212), settled by the [exit] event:
    [code !== 0] rejects with the joined and trimmed stderr, code 0
    resolves with the joined and trimmed stdout. *)
Definition execGit (args : string) : M string :=
  fun r =>
    let argv := split " " args in
    let '(run, r1) := spawn "git" argv r in
    let settled :=
      match exit_code run with
      | Some 0%Z => Ok (trim (join (stdout_data run)))
      | _ => Throw (Reason (trim (join (stderr_data run))))
      end in
    (settled, r1, [Spawn "git" argv]).

(** [getCurrentVersion] (lines 217 to 228). *)
Definition getCurrentVersion (e : IvyEngine) : M string :=
  if negb (vcsEnabled e) then ret "unknown"
  else
    res <- catch_null (execGit "rev-parse HEAD") ;;
    if negb (test HASH_PATTERN (ToString res)) then ret "unknown"
    else match res with
         | Some s => ret (substring 0 7 s)
         | None => throw (TypeError "Cannot read property 'substring' of null")
         end.

(** [getReleaseChannel] (lines 249 to 260). *)
Definition getReleaseChannel (e : IvyEngine) : M string :=
  if negb (vcsEnabled e) then ret "unknown"
  else
    res <- catch_null (execGit "rev-parse --abbrev-ref HEAD") ;;
    match res with
    | None => ret "unknown"
    | Some s =>
        if falsy s || startsWith "fatal" s then ret "unknown" else ret s
    end.

(** [getUpstreamVersion] (lines 233 to 244).  The template literal is
    evaluated, [getReleaseChannel] awaited within it, before [execGit] is
    called. *)
Definition getUpstreamVersion (e : IvyEngine) : M string :=
  if negb (vcsEnabled e) then ret "unknown"
  else
    channel <- getReleaseChannel e ;;
    res <- catch_null
             (execGit ("ls-remote git@github.com:"
                       ++ ToStringU (gitRepo (opts e))
                       ++ ".git | grep refs/heads/" ++ channel
                       ++ " | cut -f 1")) ;;
    match res with
    | None => ret "unknown"
    | Some s => if falsy s then ret "unknown" else ret (substr 0 7 s)
    end.

(** The caller's callback: it may change the outside world and it may
    throw. *)
Definition Callback : Type := string -> Repo -> Outcome unit * Repo.

(** [then(v)] for the optional parameter [then]. *)
Definition call_then (then_ : option Callback) (v : string) : M unit :=
  match then_ with
  | None => throw (TypeError "then is not a function")
  | Some f => fun r => let '(o, r1) := f v r in (o, r1, [Called v])
  end.

(** [update] (lines 266 to 283).  The pull is awaited without a
    [catch]. *)
Definition update (e : IvyEngine) (then_ : option Callback) : M unit :=
  if negb (vcsEnabled e) then call_then then_ "Failure"
  else
    local <- getCurrentVersion e ;;
    remote <- getUpstreamVersion e ;;
    if String.eqb (toLowerCase local) (toLowerCase remote)
    then call_then then_ local
    else
      res <- execGit "git pull" ;;
      if falsy res then call_then then_ "Failure"
      else
        version <- getCurrentVersion e ;;
        call_then then_ version.

End Git.

Arguments Callback Repo : clear implicits.
Arguments ret {Repo A} a.
Arguments throw {Repo A} e.
Arguments bind {Repo A B} m f.
Arguments catch_null {Repo} m.
Arguments execGit {Repo} spawn args.
Arguments getCurrentVersion {Repo} spawn e.
Arguments getReleaseChannel {Repo} spawn e.
Arguments getUpstreamVersion {Repo} spawn e.
Arguments call_then {Repo} then_ v.
Arguments update {Repo} spawn e then_.

(** *** Vocabulary of the statements *)

(** The spawn that [update] uses to pull. *)
Definition pull : Event := Spawn "git" ["git"; "pull"].

(** A spawn of one of the three queries: its first argument is a git
    subcommand, never the word [git]. *)
Definition is_query (ev : Event) : Prop :=
  match ev with
  | Spawn _ (a :: _) => a <> "git"
  | _ => False
  end.

Definition is_spawn (ev : Event) : Prop :=
  match ev with
  | Spawn _ _ => True
  | Called _ => False
  end.

(** What [getCurrentVersion] makes of the run of [git rev-parse HEAD]
    (lemma [getCurrentVersion_run]). *)
Definition version_of (run : ProcessRun) : string :=
  match exit_code run with
  | Some 0%Z =>
      let out := trim (join (stdout_data run)) in
      if test HASH_PATTERN out then substring 0 7 out else "unknown"
  | _ => "unknown"
  end.

Definition rev_parse_HEAD : list string := ["rev-parse"; "HEAD"].

(** *** A scripted outside world

    The runs that the coming calls of [spawn] will find, first call first;
    once the script is used up every process is killed by a signal. *)
Definition Script : Type := list ProcessRun.

Definition killed : ProcessRun :=
  {| stdout_data := []; stderr_data := []; exit_code := None |}.

Definition scripted (command : string) (args : list string) (q : Script)
  : ProcessRun * Script :=
  match q with
  | run :: q' => (run, q')
  | [] => (killed, [])
  end.

Definition exits (code : Z) (out err : list string) : ProcessRun :=
  {| stdout_data := out; stderr_data := err; exit_code := Some code |}.

(** A callback that only returns. *)
Definition quiet {Repo : Type} : Callback Repo := fun _ r => (Ok tt, r).

Definition acme : IvyEngine :=
  new_IvyEngine {| token := "t"; name := "bot";
                   gitRepo := Some "acme/bot"; superPerms := ["42"] |}.

End Ivy.

(** ** Construction (engine.ts, lines 89 to 132) *)

Module Boot.
Import Js Ivy.

(** Instances of the classes of ./module that the engine only passes on. *)
Record IvyModule := { module_name : string; module_tag : nat }.
Record Command := { command_tag : nat }.
Record TestCommand := { flow_tag : nat }.

(** The four registration methods of the engine: what the code of a
    concrete bot, or a start-up runnable, calls on it. *)
Inductive Call : Type :=
| registerCommand (name : string) (command : Command)
| registerModule (m : IvyModule)
| registerFlow (flow : TestCommand)
| registerManagedFlow (flow : TestCommand) (m : IvyModule).

(** A concrete bot: the bodies of the three abstract methods. *)
Record Bot := {
  registerCommands : list Call;
  registerFlows : list Call;
  registerModules : list Call
}.

Record BootOptions := {
  base : IvyEngineOptions;
  startup : option (list Call);
  eventHandler : option IvyModule
}.

Inductive Hook : Type := Commands | Flows | Modules | Startup.

Inductive Step : Type :=
| NewClient
| Enter (h : Hook)
| ModuleRegistered (m : IvyModule)
| CommandRegistered (name : string) (command : Command)
| FlowRegistered (flow : TestCommand) (owner : option IvyModule)
| ModuleInit (m : IvyModule)
| Login (token : string)
| OnReady.

(** The two managers of ./module. *)
Record Managers := {
  modules : list (string * IvyModule);
  commands : list (string * Command);
  flows : list (TestCommand * option IvyModule)
}.

Definition no_managers : Managers :=
  {| modules := []; commands := []; flows := [] |}.

(** Modelled from the spec: the registries of ./module, which is not part
    of the sources, are mappings keyed by name where a second
    registration under a name overwrites the first; the mapping keeps the
    order in which the names came in. *)
Fixpoint put {V : Type} (k : string) (v : V) (l : list (string * V))
  : list (string * V) :=
  match l with
  | [] => [(k, v)]
  | (k', v') :: l' =>
      if String.eqb k k' then (k, v) :: l' else (k', v') :: put k v l'
  end.

(** Modelled from the spec: [ModuleManager.init] of ./module invokes the
    initialization hook of each registered module once, in registration
    order. *)
Definition init (ms : Managers) : list Step :=
  map (fun entry => ModuleInit (snd entry)) (modules ms).

(** What a registration call does to the managers. *)
Definition register (c : Call) (ms : Managers) : Managers :=
  match c with
  | registerCommand n cmd =>
      {| modules := modules ms; commands := put n cmd (commands ms);
         flows := flows ms |}
  | registerModule m =>
      {| modules := put (module_name m) m (modules ms);
         commands := commands ms; flows := flows ms |}
  | registerFlow f =>
      {| modules := modules ms; commands := commands ms;
         flows := (flows ms ++ [(f, None)])%list |}
  | registerManagedFlow f m =>
      {| modules := modules ms; commands := commands ms;
         flows := (flows ms ++ [(f, Some m)])%list |}
  end.

(** The step a registration call shows up as. *)
Definition step_of (c : Call) : Step :=
  match c with
  | registerCommand n cmd => CommandRegistered n cmd
  | registerModule m => ModuleRegistered m
  | registerFlow f => FlowRegistered f None
  | registerManagedFlow f m => FlowRegistered f (Some m)
  end.

Definition perform (c : Call) (ms : Managers) : Managers * list Step :=
  (register c ms, [step_of c]).

Fixpoint perform_all (cs : list Call) (ms : Managers)
  : Managers * list Step :=
  match cs with
  | [] => (ms, [])
  | c :: cs' =>
      let '(ms1, t1) := perform c ms in
      let '(ms2, t2) := perform_all cs' ms1 in
      (ms2, (t1 ++ t2)%list)
  end.

Definition run_hook (h : Hook) (body : list Call) (ms : Managers)
  : Managers * list Step :=
  let '(ms1, t) := perform_all body ms in (ms1, Enter h :: t).

Section Construct.

(** [new DefaultEventManager(this)], of ./module. *)
Variable DefaultEventManager : IvyModule.

(** The constructor, lines 98 to 116: the client, the two managers, the
    event-handling module, the three abstract methods, the start-up
    runnable, [moduleManager.init()], [client.login] and the subscription
    to [ready]. *)
Definition construct (o : BootOptions) (bot : Bot)
  : IvyEngine * Managers * list Step :=
  let engine := new_IvyEngine (base o) in
  let handler :=
    match eventHandler o with
    | Some m => m
    | None => DefaultEventManager
    end in
  let '(ms1, t1) := perform (registerModule handler) no_managers in
  let '(ms2, t2) := run_hook Commands (registerCommands bot) ms1 in
  let '(ms3, t3) := run_hook Flows (registerFlows bot) ms2 in
  let '(ms4, t4) := run_hook Modules (registerModules bot) ms3 in
  let '(ms5, t5) :=
    match startup o with
    | Some body => run_hook Startup body ms4
    | None => (ms4, [])
    end in
  (engine, ms5,
   (NewClient :: t1 ++ t2 ++ t3 ++ t4 ++ t5
      ++ init ms5 ++ [Login (token (base o)); OnReady])%list).

End Construct.











End Boot.

(** ** The wording of the specification, for comparison *)

Module Spec.
Import Js.

(** "the argument string split on whitespace": a cut at every white-space
    character. *)
Fixpoint split_on_whitespace (s : string) : list string :=
  match s with
  | EmptyString => [EmptyString]
  | String c s' =>
      if is_space c then EmptyString :: split_on_whitespace s'
      else match split_on_whitespace s' with
           | h :: t => String c h :: t
           | [] => [String c EmptyString]
           end
  end.

(** The same, with runs of white space taken as one cut and no empty
    arguments. *)
Definition words (s : string) : list string :=
  filter (fun w => negb (falsy w)) (split_on_whitespace s).


End Spec.

(** ** Concrete inputs *)

Module Sample.
Import Js Ivy Boot.

Definition events : IvyModule := {| module_name := "events"; module_tag := 0 |}.
Definition music : IvyModule := {| module_name := "music"; module_tag := 1 |}.
Definition events' : IvyModule := {| module_name := "events"; module_tag := 2 |}.
Definition late : IvyModule := {| module_name := "late"; module_tag := 3 |}.

(** A bot that registers one command, one flow and two modules, the
    second under the name of the event handler. *)
Definition a_bot : Bot :=
  {| registerCommands := [registerCommand "ping" {| command_tag := 0 |}];
     registerFlows := [registerFlow {| flow_tag := 0 |}];
     registerModules := [registerModule music; registerModule events'] |}.

Definition with_startup : BootOptions :=
  {| base := opts acme; startup := Some [registerModule late];
     eventHandler := None |}.

(** A user on the list of [superPerms] of [acme]. *)
Definition root : User := {| user_id := "42" |}.

Definition a_member (allowed : bool) : GuildMember :=
  {| hasPermission := fun _ => allowed |}.

(** A guild every user is a member of, without any permission. *)
Definition home : Guild := {| member := fun _ => Some (a_member false) |}.

(** A guild that does not know the user: [guild.member(user)] is [null]. *)
Definition elsewhere : Guild := {| member := fun _ => None |}.

(** An identifier of three segments. *)
Definition nested : IvyEngineOptions :=
  {| token := "t"; name := "bot"; gitRepo := Some "a/b/c";
     superPerms := [] |}.

Definition head_at (hash : string) : ProcessRun := exits 0 [hash ++ LF] [].

Definition not_a_repository : ProcessRun :=
  exits 128 [] ["fatal: not a git repository" ++ LF].

(** What git answers to [git git pull]. *)
Definition not_a_command : ProcessRun :=
  exits 1 [] ["git: 'git' is not a git command. See 'git --help'." ++ LF].

(** Local and remote differ, and the pull fails. *)
Definition behind_pull_fails : Script :=
  [head_at "1234567890abcdef"; head_at "main";
   head_at ("abcdef1234567890" ++ TAB ++ "refs/heads/main");
   not_a_command].

(** Local and remote are the same commit, the remote one written in
    capitals. *)
Definition up_to_date : Script :=
  [head_at "abcdef1234567890"; head_at "main";
   head_at ("ABCDEF1234567890" ++ TAB ++ "refs/heads/main")].

Definition all_fail : Script :=
  [not_a_repository; not_a_repository; not_a_repository].

(** An argument string with a tab in it. *)
Definition tabbed : string := "log" ++ TAB ++ "-1".

End Sample.

(** ** The handler of the [ready] event (engine.ts, lines 116 to 131) *)

Module Ready.
Import Js Ivy.

(** The fields of discord.js's [PresenceData] that the default value
    sets. *)
Record PresenceData := {
  status : string;
  activity_type : string;
  activity_name : string
}.

Definition default_presence : PresenceData :=
  {| status := "online"; activity_type := "PLAYING";
     activity_name := "with the ivy platform." |}.

(** What the handler does, seen from outside: the processes it spawns,
    the lines it hands to [logger.info], the presence it sets and the call
    of the abstract [onReady]. *)
Inductive ReadyStep : Type :=
| Git (ev : Event)
| Info (name message : string)
| SetPresence (p : PresenceData)
| OnReadyCalled.

Section Handler.

Variable Repo : Type.
Variable spawn : string -> list string -> Repo -> ProcessRun * Repo.

(** The three statements that do not depend on version control. *)
Definition greet (e : IvyEngine) (presence : option PresenceData)
  : list ReadyStep :=
  [Info (name (opts e)) "Successfully connected to Discord.";
   SetPresence (match presence with Some p => p | None => default_presence end);
   OnReadyCalled].

(** The handler.  Within the template literal [getReleaseChannel] is
    awaited before [getCurrentVersion]. *)
Definition on_ready (e : IvyEngine) (presence : option PresenceData)
  : Repo -> Outcome unit * Repo * list ReadyStep :=
  fun r =>
    if vcsEnabled e then
      match getReleaseChannel spawn e r with
      | (Throw err, r1, t1) => (Throw err, r1, map Git t1)
      | (Ok channel, r1, t1) =>
          match getCurrentVersion spawn e r1 with
          | (Throw err, r2, t2) => (Throw err, r2, map Git (t1 ++ t2)%list)
          | (Ok version, r2, t2) =>
              (Ok tt, r2,
               (map Git (t1 ++ t2)
                  ++ Info (name (opts e))
                          ("Release channel: " ++ channel
                             ++ ", version: " ++ version)
                  :: greet e presence)%list)
          end
      end
    else (Ok tt, r, greet e presence).

End Handler.

Arguments on_ready {Repo} spawn e presence.

Definition is_git (s : ReadyStep) : bool :=
  match s with Git _ => true | _ => false end.

End Ready.

(** ** The icons (engine.ts, lines 58 to 72) *)

Module Icons.

Inductive IvyEmbedIcons : Type :=
| AUDIO | BIRTHDAY | EDU | ERROR | HELP | MEMBER | MESSAGE | NUMBERS
| POLL | PREFS | STONKS | TEST | XP.

(** The value of each member of the enum. *)
Definition url (i : IvyEmbedIcons) : string :=
  match i with
  | AUDIO => "https://storage.googleapis.com/stonks-cdn/audio.png"
  | BIRTHDAY => "https://storage.googleapis.com/stonks-cdn/birthday.png"
  | EDU => "https://storage.googleapis.com/stonks-cdn/univ.png"
  | ERROR => "https://storage.googleapis.com/stonks-cdn/error.png"
  | HELP => "https://storage.googleapis.com/stonks-cdn/help.png"
  | MEMBER => "https://storage.googleapis.com/stonks-cdn/jack.png"
  | MESSAGE => "https://storage.googleapis.com/stonks-cdn/message.png"
  | NUMBERS => "https://storage.googleapis.com/stonks-cdn/counther.png"
  | POLL => "https://storage.googleapis.com/stonks-cdn/poll.png"
  | PREFS => "https://storage.googleapis.com/stonks-cdn/prefs.png"
  | STONKS => "https://storage.googleapis.com/stonks-cdn/stonks.png"
  | TEST => "https://storage.googleapis.com/stonks-cdn/test.png"
  | XP => "https://storage.googleapis.com/stonks-cdn/xp.png"
  end.

Definition cdn : string := "https://storage.googleapis.com/stonks-cdn/".

End Icons.

(** ** Shapes of strings, for the statements about the two patterns *)

Module Shape.
Import Js.

(** The character before the position reached after reading [s], when
    [prev] was the character before [s]. *)
Fixpoint last_of (prev : option ascii) (s : string) : option ascii :=
  match s with
  | EmptyString => prev
  | String c s' => last_of (Some c) s'
  end.

Definition fits (hi : option nat) (n : nat) : Prop :=
  match hi with
  | Some h => n <= h
  | None => True
  end.

(** [s] holds 5 to 40 lowercase hexadecimal digits in a row, with no word
    character right before them and none right after. *)
Definition has_hash (s : string) : Prop :=
  exists pre run post,
    s = pre ++ run ++ post
    /\ all_chars is_hex run = true
    /\ 5 <= String.length run <= 40
    /\ word_at (last_of None pre) = false
    /\ word_at (next_char post) = false.

(** [s] holds a slash with a word character on either side of it. *)
Definition has_repo (s : string) : Prop :=
  exists pre a b post,
    s = pre ++ String a (String "/" (String b post))
    /\ is_word a = true /\ is_word b = true.

(** [s] does not begin with white space. *)
Definition starts_clean (s : string) : Prop :=
  match s with
  | EmptyString => True
  | String c _ => is_space c = false
  end.

(** How often [c] occurs in [s]. *)
Fixpoint count (c : ascii) (s : string) : nat :=
  match s with
  | EmptyString => 0
  | String a s' => (if Ascii.eqb a c then 1 else 0) + count c s'
  end.

(** What [getReleaseChannel] makes of the run of
    [git rev-parse --abbrev-ref HEAD]. *)
Definition channel_of (run : Ivy.ProcessRun) : string :=
  match Ivy.exit_code run with
  | Some 0%Z =>
      let out := trim (join (Ivy.stdout_data run)) in
      if falsy out || startsWith "fatal" out then "unknown" else out
  | _ => "unknown"
  end.

(** What [getUpstreamVersion] makes of the run of [git ls-remote ...]. *)
Definition upstream_of (run : Ivy.ProcessRun) : string :=
  match Ivy.exit_code run with
  | Some 0%Z =>
      let out := trim (join (Ivy.stdout_data run)) in
      if falsy out then "unknown" else substr 0 7 out
  | _ => "unknown"
  end.

Definition abbrev_ref_HEAD : list string :=
  ["rev-parse"; "--abbrev-ref"; "HEAD"].

(** The arguments of the remote query when neither the identifier nor the
    branch holds a space. *)
Definition ls_remote (repo channel : string) : list string :=
  ["ls-remote"; "git@github.com:" ++ repo ++ ".git"; "|"; "grep";
   "refs/heads/" ++ channel; "|"; "cut"; "-f"; "1"].

End Shape.

(** ** More concrete inputs *)

Module Sample2.
Import Js Ivy Sample.

(** Local and remote differ and the pull moves the checkout. *)
Definition behind_pull_works : Script :=
  [head_at "1234567890abcdef"; head_at "main";
   head_at ("abcdef1234567890" ++ TAB ++ "refs/heads/main");
   exits 0 ["Updating 1234567..abcdef1" ++ LF; "Fast-forward" ++ LF] [];
   head_at "abcdef1234567890"].

(** Local and remote differ and the pull exits with 0 without a word. *)
Definition behind_pull_silent : Script :=
  [head_at "1234567890abcdef"; head_at "main";
   head_at ("abcdef1234567890" ++ TAB ++ "refs/heads/main");
   exits 0 [LF] []].

(** No identifier, and one without a slash. *)
Definition unconfigured : IvyEngineOptions :=
  {| token := "t"; name := "bot"; gitRepo := None; superPerms := [] |}.

Definition slashless : IvyEngineOptions :=
  {| token := "t"; name := "bot"; gitRepo := Some "acme"; superPerms := [] |}.

(** A user who is on no list. *)
Definition guest : User := {| user_id := "7" |}.

End Sample2.

(** ** Vocabulary for the module registry *)

Module Registry.
Import Boot.








End Registry.

(** ** Vocabulary for the branches of [update] *)

Module Branches.
Import Js Ivy.

Section Update.

Variable Repo : Type.
Variable spawn : string -> list string -> Repo -> ProcessRun * Repo.

(** Started in [r], [update] comes to call its callback with [v], in the
    state [r0] and after the events [t0], which are spawns only: with a
    callback that call is made and is the last thing [update] does, its
    result being the result of [update]; without one a [TypeError] is
    thrown at that point. *)
Definition calls_back (e : IvyEngine) (r : Repo) (v : string) (r0 : Repo)
           (t0 : list Event) : Prop :=
  (forall then_ : Callback Repo,
      update spawn e (Some then_) r =
        (fst (then_ v r0), snd (then_ v r0), (t0 ++ [Called v])%list))
  /\ update spawn e None r =
       (Throw (TypeError "then is not a function"), r0, t0)
  /\ Forall is_spawn t0.

End Update.

Arguments calls_back {Repo} spawn e r v r0 t0.

End Branches.

(** ** The git subsystem when a process may end without an exit event

    [execGit] listens to [exit] only.  When git cannot be spawned the
    child emits [error], for which there is no listener, and no [exit];
    a process that keeps running emits neither.  In both cases the promise
    of [execGit] is never settled, and the [async] function that awaits it
    never goes on.  The module [Ivy] above holds the runs in which every
    process exits; here the oracle may also answer that it does not. *)

Module Live.
Import Js Ivy Ready.

(** How a spawned process ends, as far as the engine can see. *)
Inductive Ending : Type :=
| Exited (run : ProcessRun)
| NoExit.

(** What becomes of a promise. *)
Inductive Settlement (A : Type) : Type :=
| Settled (o : Outcome A)
| Unsettled.
Arguments Settled {A} o.
Arguments Unsettled {A}.

Section Git.

Variable Repo : Type.
Variable launch : string -> list string -> Repo -> Ending * Repo.

Definition M (A : Type) : Type := Repo -> Settlement A * Repo * list Event.

Definition ret {A} (a : A) : M A := fun r => (Settled (Ok a), r, []).

Definition throw {A} (e : Thrown) : M A := fun r => (Settled (Throw e), r, []).

(** [await]: what follows runs only once the promise is fulfilled. *)
Definition bind {A B} (m : M A) (f : A -> M B) : M B :=
  fun r =>
    match m r with
    | (Settled (Ok a), r1, t1) =>
        let '(o, r2, t2) := f a r1 in (o, r2, (t1 ++ t2)%list)
    | (Settled (Throw e), r1, t1) => (Settled (Throw e), r1, t1)
    | (Unsettled, r1, t1) => (Unsettled, r1, t1)
    end.

Notation "x <- m ;; k" := (bind m (fun x => k))
  (at level 61, m at next level, right associativity).

(** [p.catch(err => null)]: a promise that is never settled is not
    caught. *)
Definition catch_null (m : M string) : M (option string) :=
  fun r =>
    match m r with
    | (Settled (Ok a), r1, t1) => (Settled (Ok (Some a)), r1, t1)
    | (Settled (Throw _), r1, t1) => (Settled (Ok None), r1, t1)
    | (Unsettled, r1, t1) => (Unsettled, r1, t1)
    end.

(** [execGit] (lines 193 to 212). *)
Definition execGit (args : string) : M string :=
  fun r =>
    let argv := split " " args in
    let '(ending, r1) := launch "git" argv r in
    let settled :=
      match ending with
      | Exited run =>
          match exit_code run with
          | Some 0%Z => Settled (Ok (trim (join (stdout_data run))))
          | _ => Settled (Throw (Reason (trim (join (stderr_data run)))))
          end
      | NoExit => Unsettled
      end in
    (settled, r1, [Spawn "git" argv]).

(** [getCurrentVersion] (lines 217 to 228). *)
Definition getCurrentVersion (e : IvyEngine) : M string :=
  if negb (vcsEnabled e) then ret "unknown"
  else
    res <- catch_null (execGit "rev-parse HEAD") ;;
    if negb (test HASH_PATTERN (ToString res)) then ret "unknown"
    else match res with
         | Some s => ret (substring 0 7 s)
         | None => throw (TypeError "Cannot read property 'substring' of null")
         end.

(** [getReleaseChannel] (lines 249 to 260). *)
Definition getReleaseChannel (e : IvyEngine) : M string :=
  if negb (vcsEnabled e) then ret "unknown"
  else
    res <- catch_null (execGit "rev-parse --abbrev-ref HEAD") ;;
    match res with
    | None => ret "unknown"
    | Some s =>
        if falsy s || startsWith "fatal" s then ret "unknown" else ret s
    end.

(** [getUpstreamVersion] (lines 233 to 244). *)
Definition getUpstreamVersion (e : IvyEngine) : M string :=
  if negb (vcsEnabled e) then ret "unknown"
  else
    channel <- getReleaseChannel e ;;
    res <- catch_null
             (execGit ("ls-remote git@github.com:"
                       ++ ToStringU (gitRepo (opts e))
                       ++ ".git | grep refs/heads/" ++ channel
                       ++ " | cut -f 1")) ;;
    match res with
    | None => ret "unknown"
    | Some s => if falsy s then ret "unknown" else ret (substr 0 7 s)
    end.

(** [then(v)] for the optional parameter [then]. *)
Definition call_then (then_ : option (Callback Repo)) (v : string) : M unit :=
  match then_ with
  | None => throw (TypeError "then is not a function")
  | Some f => fun r => let '(o, r1) := f v r in (Settled o, r1, [Called v])
  end.

(** [update] (lines 266 to 283). *)
Definition update (e : IvyEngine) (then_ : option (Callback Repo)) : M unit :=
  if negb (vcsEnabled e) then call_then then_ "Failure"
  else
    local <- getCurrentVersion e ;;
    remote <- getUpstreamVersion e ;;
    if String.eqb (toLowerCase local) (toLowerCase remote)
    then call_then then_ local
    else
      res <- execGit "git pull" ;;
      if falsy res then call_then then_ "Failure"
      else
        version <- getCurrentVersion e ;;
        call_then then_ version.

(** The handler of [ready] (lines 116 to 131). *)
Definition on_ready (e : IvyEngine) (presence : option PresenceData)
  : Repo -> Settlement unit * Repo * list ReadyStep :=
  fun r =>
    if vcsEnabled e then
      match getReleaseChannel e r with
      | (Settled (Ok channel), r1, t1) =>
          match getCurrentVersion e r1 with
          | (Settled (Ok version), r2, t2) =>
              (Settled (Ok tt), r2,
               (map Git (t1 ++ t2)
                  ++ Info (name (opts e))
                          ("Release channel: " ++ channel
                             ++ ", version: " ++ version)
                  :: greet e presence)%list)
          | (Settled (Throw err), r2, t2) =>
              (Settled (Throw err), r2, map Git (t1 ++ t2)%list)
          | (Unsettled, r2, t2) => (Unsettled, r2, map Git (t1 ++ t2)%list)
          end
      | (Settled (Throw err), r1, t1) => (Settled (Throw err), r1, map Git t1)
      | (Unsettled, r1, t1) => (Unsettled, r1, map Git t1)
      end
    else (Settled (Ok tt), r, greet e presence).

End Git.

Arguments execGit {Repo} launch args.
Arguments getCurrentVersion {Repo} launch e.
Arguments getReleaseChannel {Repo} launch e.
Arguments getUpstreamVersion {Repo} launch e.
Arguments call_then {Repo} then_ v.
Arguments update {Repo} launch e then_.
Arguments on_ready {Repo} launch e presence.

(** An oracle under which every process exits. *)
Definition exiting {Repo : Type}
           (spawn : string -> list string -> Repo -> ProcessRun * Repo)
  : string -> list string -> Repo -> Ending * Repo :=
  fun command args r =>
    let '(run, r1) := spawn command args r in (Exited run, r1).

(** The result of a computation that has settled. *)
Definition settle {A B T : Type} (x : Outcome A * B * T)
  : Settlement A * B * T :=
  let '(o, r, t) := x in (Settled o, r, t).

(** A scripted outside world: how the coming processes end, first call
    first; once the script is used up no process exits. *)
Definition Script : Type := list Ending.

Definition scripted (command : string) (args : list string) (q : Script)
  : Ending * Script :=
  match q with
  | ending :: q' => (ending, q')
  | [] => (NoExit, [])
  end.

Definition is_settled {A : Type} (s : Settlement A) : Prop :=
  match s with
  | Settled _ => True
  | Unsettled => False
  end.

End Live.

(** ** Facts about the string primitives *)

Module JsFacts.
Import Js.

Lemma is_hex_word c : is_hex c = true -> is_word c = true.
Proof.
  destruct c as [[] [] [] [] [] [] [] []]; vm_compute; congruence.
Qed.

Lemma substring_0_7 s : substring 0 7 s = String.substring 0 7 s.
Proof. reflexivity. Qed.

Lemma prefix_length n s :
  String.length (String.substring 0 n s) = Nat.min n (String.length s).
Proof.
  revert s; induction n as [|n IH]; intros [|c s]; simpl; auto.
Qed.


Lemma split_nonempty sep s : split sep s <> [].
Proof.
  destruct s as [|c s]; simpl; [discriminate|].
  destruct (Ascii.eqb c sep); [discriminate|].
  destruct (split sep s); discriminate.
Qed.

(** [split] cuts at every separator and nowhere else: gluing the pieces
    with the separator gives the string back, and no piece holds one. *)
Lemma split_concat sep s :
  String.concat (String sep "") (split sep s) = s.
Proof.
  induction s as [|c s IH]; [reflexivity|]. simpl.
  pose proof (split_nonempty sep s) as N.
  destruct (Ascii.eqb c sep) eqn:E.
  - apply Ascii.eqb_eq in E. subst c.
    destruct (split sep s) as [|h t]; [congruence|].
    change (String.concat (String sep "") ("" :: h :: t))
      with ("" ++ String sep "" ++ String.concat (String sep "") (h :: t)).
    rewrite IH. reflexivity.
  - destruct (split sep s) as [|h t]; [congruence|].
    destruct t as [|h' t]; simpl in *; rewrite IH; reflexivity.
Qed.

Lemma split_pieces sep s :
  Forall (fun a => occurs sep a = false) (split sep s).
Proof.
  induction s as [|c s IH]; simpl.
  - repeat constructor.
  - destruct (Ascii.eqb c sep) eqn:E.
    + constructor; [reflexivity|exact IH].
    + destruct (split sep s) as [|h t]; [repeat constructor; simpl; rewrite E; reflexivity|].
      inversion IH as [|? ? Hh Ht]; subst.
      constructor; [simpl; rewrite E; exact Hh|exact Ht].
Qed.

(** A run that succeeds has handed some suffix of the input to its
    continuation. *)
Lemma repeat_m_reaches p k s : forall lo hi prev,
  repeat_m p lo hi k prev s = true ->
  exists prev' s1 s2, s = s1 ++ s2 /\ k prev' s2 = true.
Proof.
  induction s as [|c s IH]; intros lo hi prev H; simpl in H.
  - apply andb_true_iff in H as [_ H]. exists prev, "", "". auto.
  - assert (Hstop : (lo =? 0) && k prev (String c s) = true ->
                    exists prev' s1 s2,
                      String c s = s1 ++ s2 /\ k prev' s2 = true).
    { intros E; apply andb_true_iff in E as [_ E].
      exists prev, "", (String c s); auto. }
    destruct (p c && can_take hi); auto.
    apply orb_true_iff in H as [H|H]; auto.
    apply IH in H as (prev' & s1 & s2 & -> & Hk).
    exists prev', (String c s1), s2; auto.
Qed.

Lemma search_reaches r s : forall prev,
  search r prev s = true ->
  exists prev' s1 s2, s = s1 ++ s2 /\ matches r accept prev' s2 = true.
Proof.
  induction s as [|c s IH]; intros prev H; simpl in H.
  - rewrite orb_false_r in H. exists prev, "", ""; auto.
  - apply orb_true_iff in H as [H|H].
    + exists prev, "", (String c s); auto.
    + apply IH in H as (prev' & s1 & s2 & -> & Hk).
      exists prev', (String c s1), s2; auto.
Qed.

Lemma occurs_app c s1 s2 : occurs c s2 = true -> occurs c (s1 ++ s2) = true.
Proof.
  induction s1 as [|a s1 IH]; simpl; auto.
  intros H; rewrite (IH H); apply orb_true_r.
Qed.


End JsFacts.
(** ** Facts about the engine *)

Module IvyFacts.
Import Js JsFacts Ivy.

(** *** The two patterns *)

Lemma HASH_PATTERN_null : test HASH_PATTERN (ToString None) = false.
Proof. vm_compute. reflexivity. Qed.


(** The repository pattern finds nothing in a string without a slash. *)
Lemma GIT_REPO_PATTERN_slash s :
  test GIT_REPO_PATTERN s = true -> occurs "/" s = true.
Proof.
  unfold test. intros H.
  apply search_reaches in H as (prev & s1 & s2 & -> & H).
  unfold GIT_REPO_PATTERN in H. cbn [matches] in H.
  apply repeat_m_reaches in H as (prev' & s3 & s4 & -> & H).
  destruct s4 as [|c s4]; [discriminate|].
  apply andb_true_iff in H as [Hc _].
  apply Ascii.eqb_eq in Hc. subst c.
  apply occurs_app, occurs_app. reflexivity.
Qed.

(** *** [has] *)

Lemma has_superuser_member e user permission guild m :
  member guild user = Some m ->
  In (user_id user) (superPerms (opts e)) ->
  has e user permission guild = Ok true.
Proof.
  intros M I. unfold has. rewrite M. f_equal.
  apply orb_true_iff; right. apply existsb_exists.
  exists (user_id user). split; [exact I|apply String.eqb_refl].
Qed.

Lemma has_stranger e user permission guild :
  member guild user = None ->
  has e user permission guild =
    Throw (TypeError "Cannot read property 'hasPermission' of null").
Proof. intros M. unfold has. rewrite M. reflexivity. Qed.

(** *** The flag [vcsEnabled] *)

Lemma init_vcsEnabled_absent o :
  gitRepo o = None \/ gitRepo o = Some "" -> init_vcsEnabled o = false.
Proof. unfold init_vcsEnabled. intros [-> | ->]; reflexivity. Qed.

Lemma init_vcsEnabled_no_slash o s :
  gitRepo o = Some s -> occurs "/" s = false -> init_vcsEnabled o = false.
Proof.
  intros E N. unfold init_vcsEnabled. rewrite E. cbn [ToStringU].
  destruct (test GIT_REPO_PATTERN s) eqn:T.
  - apply GIT_REPO_PATTERN_slash in T. congruence.
  - destruct (truthy (Some s)); reflexivity.
Qed.

(** *** The git subsystem *)

Section GitFacts.

Context {Repo : Type}.
Variable spawn : string -> list string -> Repo -> ProcessRun * Repo.

Lemma execGit_run args r :
  execGit spawn args r =
    (match exit_code (fst (spawn "git" (split " " args) r)) with
     | Some 0%Z =>
         Ok (trim (join (stdout_data (fst (spawn "git" (split " " args) r)))))
     | _ =>
         Throw (Reason
                  (trim (join (stderr_data
                                 (fst (spawn "git" (split " " args) r))))))
     end,
     snd (spawn "git" (split " " args) r),
     [Spawn "git" (split " " args)]).
Proof.
  unfold execGit. destruct (spawn "git" (split " " args) r) as [run r1].
  reflexivity.
Qed.

Lemma getCurrentVersion_off e r :
  vcsEnabled e = false -> getCurrentVersion spawn e r = (Ok "unknown", r, []).
Proof. intros H. unfold getCurrentVersion. rewrite H. reflexivity. Qed.

Lemma getReleaseChannel_off e r :
  vcsEnabled e = false -> getReleaseChannel spawn e r = (Ok "unknown", r, []).
Proof. intros H. unfold getReleaseChannel. rewrite H. reflexivity. Qed.

Lemma getUpstreamVersion_off e r :
  vcsEnabled e = false ->
  getUpstreamVersion spawn e r = (Ok "unknown", r, []).
Proof. intros H. unfold getUpstreamVersion. rewrite H. reflexivity. Qed.

(** With version control on, [getCurrentVersion] spawns
    [git rev-parse HEAD] once and answers with what [version_of] reads
    from that run. *)
Lemma getCurrentVersion_run e r :
  vcsEnabled e = true ->
  getCurrentVersion spawn e r =
    (Ok (version_of (fst (spawn "git" rev_parse_HEAD r))),
     snd (spawn "git" rev_parse_HEAD r),
     [Spawn "git" rev_parse_HEAD]).
Proof.
  intros H. unfold getCurrentVersion, bind, catch_null. rewrite H.
  cbn [negb]. rewrite execGit_run.
  change (split " " "rev-parse HEAD") with rev_parse_HEAD.
  unfold version_of.
  destruct (exit_code (fst (spawn "git" rev_parse_HEAD r))) as [[|c|c]|];
    try (rewrite HASH_PATTERN_null; reflexivity).
  cbn [ToString].
  destruct (test HASH_PATTERN _); reflexivity.
Qed.

Lemma getCurrentVersion_ok e r :
  exists v r1 t,
    getCurrentVersion spawn e r = (Ok v, r1, t) /\ Forall is_query t.
Proof.
  destruct (vcsEnabled e) eqn:H.
  - rewrite getCurrentVersion_run by exact H.
    do 3 eexists; split; [reflexivity|].
    repeat constructor. discriminate.
  - rewrite getCurrentVersion_off by exact H.
    do 3 eexists; split; [reflexivity|constructor].
Qed.

Lemma getReleaseChannel_ok e r :
  exists v r1 t,
    getReleaseChannel spawn e r = (Ok v, r1, t) /\ Forall is_query t.
Proof.
  destruct (vcsEnabled e) eqn:H.
  - unfold getReleaseChannel, bind, catch_null. rewrite H. cbn [negb].
    rewrite execGit_run.
    change (split " " "rev-parse --abbrev-ref HEAD")
      with ["rev-parse"; "--abbrev-ref"; "HEAD"].
    assert (Q : Forall is_query [Spawn "git" ["rev-parse"; "--abbrev-ref"; "HEAD"]])
      by (repeat constructor; discriminate).
    destruct (exit_code _) as [[|c|c]|];
      try (do 3 eexists; split; [reflexivity|exact Q]).
    destruct (falsy _ || startsWith "fatal" _);
      do 3 eexists; (split; [reflexivity|]); rewrite app_nil_r; exact Q.
  - rewrite getReleaseChannel_off by exact H.
    do 3 eexists; split; [reflexivity|constructor].
Qed.

Lemma ls_remote_argv rest :
  exists more,
    split " " ("ls-remote git@github.com:" ++ rest) = "ls-remote" :: more.
Proof. eexists. reflexivity. Qed.

Lemma getUpstreamVersion_ok e r :
  exists v r1 t,
    getUpstreamVersion spawn e r = (Ok v, r1, t) /\ Forall is_query t.
Proof.
  destruct (vcsEnabled e) eqn:H.
  - unfold getUpstreamVersion. rewrite H. cbn [negb]. unfold bind at 1.
    destruct (getReleaseChannel_ok e r) as (ch & r1 & t1 & -> & Q1).
    unfold bind, catch_null. rewrite execGit_run.
    destruct (ls_remote_argv
                (ToStringU (gitRepo (opts e)) ++ ".git | grep refs/heads/"
                   ++ ch ++ " | cut -f 1")) as (more & E).
    cbn [String.append] in E |- *. rewrite E.
    assert (Q : Forall is_query (t1 ++ [Spawn "git" ("ls-remote" :: more)] ++ [])%list).
    { apply Forall_app; split; [exact Q1|].
      repeat constructor. discriminate. }
    destruct (exit_code _) as [[|c|c]|];
      try (do 3 eexists; split; [reflexivity|exact Q]).
    destruct (falsy _);
      do 3 eexists; (split; [reflexivity|exact Q]).
  - rewrite getUpstreamVersion_off by exact H.
    do 3 eexists; split; [reflexivity|constructor].
Qed.

Lemma query_is_spawn t : Forall is_query t -> Forall is_spawn t.
Proof.
  apply Forall_impl. intros [c [|a l]|v]; simpl; tauto.
Qed.

Lemma query_not_pull t : Forall is_query t -> ~ In pull t.
Proof.
  intros Q I. rewrite Forall_forall in Q. apply Q in I.
  apply I. reflexivity.
Qed.

(** The branch of [update] for equal versions. *)
Lemma update_equal_branch e then_ r local r1 t1 remote r2 t2 :
  vcsEnabled e = true ->
  getCurrentVersion spawn e r = (Ok local, r1, t1) ->
  getUpstreamVersion spawn e r1 = (Ok remote, r2, t2) ->
  toLowerCase local = toLowerCase remote ->
  update spawn e then_ r =
    (fst (fst (call_then then_ local r2)),
     snd (fst (call_then then_ local r2)),
     (t1 ++ t2 ++ snd (call_then then_ local r2))%list).
Proof.
  intros H E1 E2 Eq. unfold update, bind. rewrite H. cbn [negb].
  rewrite E1, E2. apply String.eqb_eq in Eq. rewrite Eq.
  destruct (call_then then_ local r2) as [[o r3] t]. reflexivity.
Qed.

(** The branch of [update] where the pull does not exit with 0: the
    rejection of [execGit] is the rejection of [update]. *)
Lemma update_pull_rejected e then_ r local r1 t1 remote r2 t2 :
  vcsEnabled e = true ->
  getCurrentVersion spawn e r = (Ok local, r1, t1) ->
  getUpstreamVersion spawn e r1 = (Ok remote, r2, t2) ->
  toLowerCase local <> toLowerCase remote ->
  exit_code (fst (spawn "git" ["git"; "pull"] r2)) <> Some 0%Z ->
  update spawn e then_ r =
    (Throw (Reason (trim (join (stderr_data
                                  (fst (spawn "git" ["git"; "pull"] r2)))))),
     snd (spawn "git" ["git"; "pull"] r2),
     (t1 ++ t2 ++ [pull])%list).
Proof.
  intros H E1 E2 Ne Hx. unfold update, bind. rewrite H. cbn [negb].
  rewrite E1, E2. apply String.eqb_neq in Ne. rewrite Ne.
  rewrite execGit_run. change (split " " "git pull") with ["git"; "pull"].
  destruct (exit_code _) as [[|c|c]|]; try reflexivity.
  contradiction Hx; reflexivity.
Qed.

(** [update] is a computation that does not look at the callback,
    followed either by one call of the callback or, when the pull was
    rejected, by nothing. *)
Lemma update_routes e r :
  (exists v r0 t0,
      Forall is_spawn t0 /\
      forall then_,
        update spawn e then_ r =
          (fst (fst (call_then then_ v r0)),
           snd (fst (call_then then_ v r0)),
           (t0 ++ snd (call_then then_ v r0))%list))
  \/ (exists text r1 t0,
        Forall is_spawn t0 /\
        forall then_, update spawn e then_ r = (Throw (Reason text), r1, t0)).
Proof.
  destruct (vcsEnabled e) eqn:H.
  2:{ left. exists "Failure", r, []. split; [constructor|].
      intros then_. unfold update. rewrite H. cbn [negb app].
      destruct (call_then then_ "Failure" r) as [[o r1] t]. reflexivity. }
  destruct (getCurrentVersion_ok e r) as (local & r1 & t1 & E1 & Q1).
  destruct (getUpstreamVersion_ok e r1) as (remote & r2 & t2 & E2 & Q2).
  apply query_is_spawn in Q1, Q2.
  destruct (String.eqb (toLowerCase local) (toLowerCase remote)) eqn:Eq.
  { left. exists local, r2, (t1 ++ t2)%list. split.
    - apply Forall_app; auto.
    - intros then_. rewrite <- app_assoc.
      apply String.eqb_eq in Eq.
      apply (update_equal_branch e then_ r local r1 t1 remote r2 t2); auto. }
  assert (Qp : Forall is_spawn (t1 ++ t2 ++ [pull])%list).
  { repeat (apply Forall_app; split; auto). repeat constructor. }
  destruct (exit_code (fst (spawn "git" ["git"; "pull"] r2))) as [code|] eqn:Ex.
  2:{ right. do 3 eexists. split; [exact Qp|]. intros then_.
      apply (update_pull_rejected e then_ r local r1 t1 remote r2 t2); auto.
      - apply String.eqb_neq; exact Eq.
      - rewrite Ex; discriminate. }
  destruct (Z.eq_dec code 0) as [->|Nz].
  2:{ right. do 3 eexists. split; [exact Qp|]. intros then_.
      apply (update_pull_rejected e then_ r local r1 t1 remote r2 t2); auto.
      - apply String.eqb_neq; exact Eq.
      - rewrite Ex; congruence. }
  set (res := trim (join (stdout_data (fst (spawn "git" ["git"; "pull"] r2))))).
  set (r3 := snd (spawn "git" ["git"; "pull"] r2)).
  destruct (falsy res) eqn:F.
  - left. exists "Failure", r3, (t1 ++ t2 ++ [pull])%list.
    split; [exact Qp|]. intros then_.
    unfold update, bind. rewrite H. cbn [negb]. rewrite E1, E2, Eq.
    rewrite execGit_run. change (split " " "git pull") with ["git"; "pull"].
    rewrite Ex. fold res r3. rewrite F.
    destruct (call_then then_ "Failure" r3) as [[o r4] t]. cbn [fst snd].
    rewrite <- !app_assoc. reflexivity.
  - destruct (getCurrentVersion_ok e r3) as (v & r4 & t4 & E4 & Q4).
    apply query_is_spawn in Q4.
    left. exists v, r4, (t1 ++ t2 ++ [pull] ++ t4)%list. split.
    + repeat (apply Forall_app; split; auto). repeat constructor.
    + intros then_.
      unfold update, bind. rewrite H. cbn [negb]. rewrite E1, E2, Eq.
      rewrite execGit_run. change (split " " "git pull") with ["git"; "pull"].
      rewrite Ex. fold res r3. rewrite F, E4.
      destruct (call_then then_ v r4) as [[o r5] t]. cbn [fst snd].
      rewrite <- !app_assoc. reflexivity.
Qed.

(** The two queries of [update] leave only query spawns behind. *)
Lemma query_traces e r local r1 t1 remote r2 t2 :
  getCurrentVersion spawn e r = (Ok local, r1, t1) ->
  getUpstreamVersion spawn e r1 = (Ok remote, r2, t2) ->
  Forall is_query (t1 ++ t2)%list.
Proof.
  intros E1 E2.
  destruct (getCurrentVersion_ok e r) as (? & ? & ? & E1' & Q1).
  destruct (getUpstreamVersion_ok e r1) as (? & ? & ? & E2' & Q2).
  rewrite E1 in E1'. rewrite E2 in E2'.
  injection E1' as _ _ <-. injection E2' as _ _ <-.
  apply Forall_app; auto.
Qed.

Lemma no_pull_before_call t1 t2 v :
  Forall is_query (t1 ++ t2)%list ->
  ~ In pull (t1 ++ t2 ++ [Called v])%list.
Proof.
  intros Q I. rewrite app_assoc in I.
  apply in_app_or in I as [I|[I|[]]].
  - exact (query_not_pull _ Q I).
  - discriminate I.
Qed.

(** C5. With version control on, when [getCurrentVersion] and
    [getUpstreamVersion] answer with values that are equal up to case,
    [update] calls its callback once, with the current version, and the
    only processes it has spawned are those of the two queries: no
    pull. *)
Theorem update_noop e then_ r local r1 t1 remote r2 t2 :
  vcsEnabled e = true ->
  getCurrentVersion spawn e r = (Ok local, r1, t1) ->
  getUpstreamVersion spawn e r1 = (Ok remote, r2, t2) ->
  toLowerCase local = toLowerCase remote ->
  exists o r3 t,
    update spawn e (Some then_) r = (o, r3, t)
    /\ (o, r3) = then_ local r2
    /\ t = (t1 ++ t2 ++ [Called local])%list
    /\ Forall is_query (t1 ++ t2)%list
    /\ ~ In pull t.
Proof.
  intros H E1 E2 Eq.
  rewrite (update_equal_branch e (Some then_) r local r1 t1 remote r2 t2)
    by assumption.
  cbn [call_then]. destruct (then_ local r2) as [o r3]. cbn [fst snd].
  exists o, r3, (t1 ++ t2 ++ [Called local])%list.
  pose proof (query_traces e r local r1 t1 remote r2 t2 E1 E2) as Q.
  repeat split; auto.
  apply no_pull_before_call, Q.
Qed.

(** C9. When both queries inside [update] end with the sentinel
    [unknown], [update] is in the branch of equal versions: the callback
    is called with [unknown] and nothing is pulled, as when the checkout
    is up to date. *)
Theorem update_both_unknown e then_ r r1 t1 r2 t2 :
  vcsEnabled e = true ->
  getCurrentVersion spawn e r = (Ok "unknown", r1, t1) ->
  getUpstreamVersion spawn e r1 = (Ok "unknown", r2, t2) ->
  exists o r3 t,
    update spawn e (Some then_) r = (o, r3, t)
    /\ (o, r3) = then_ "unknown" r2
    /\ t = (t1 ++ t2 ++ [Called "unknown"])%list
    /\ ~ In pull t.
Proof.
  intros H E1 E2.
  rewrite (update_equal_branch e (Some then_) r _ r1 t1 _ r2 t2 H E1 E2 eq_refl).
  cbn [call_then]. destruct (then_ "unknown" r2) as [o r3]. cbn [fst snd].
  exists o, r3, (t1 ++ t2 ++ [Called "unknown"])%list.
  repeat split.
  apply no_pull_before_call.
  exact (query_traces e r _ r1 t1 _ r2 t2 E1 E2).
Qed.

(** A run of [update] that ends in [call_then] calls back there. *)
Lemma calls_back_intro e r v r0 t0 :
  Forall is_spawn t0 ->
  (forall then_,
      update spawn e then_ r =
        (fst (fst (call_then then_ v r0)),
         snd (fst (call_then then_ v r0)),
         (t0 ++ snd (call_then then_ v r0))%list)) ->
  Branches.calls_back spawn e r v r0 t0.
Proof.
  intros Q U. unfold Branches.calls_back. repeat split.
  - intros then_. rewrite U. cbn [call_then].
    destruct (then_ v r0). reflexivity.
  - rewrite U. cbn. rewrite app_nil_r. reflexivity.
  - exact Q.
Qed.

Lemma update_disabled_branch e then_ r :
  vcsEnabled e = false ->
  update spawn e then_ r =
    (fst (fst (call_then then_ "Failure" r)),
     snd (fst (call_then then_ "Failure" r)),
     ([] ++ snd (call_then then_ "Failure" r))%list).
Proof.
  intros H. unfold update. rewrite H. cbn [negb app].
  destruct (call_then then_ "Failure" r) as [[o r1] t]. reflexivity.
Qed.

(** The branch of [update] where the pull exits with 0 without output. *)
Lemma update_silent_branch e then_ r local r1 t1 remote r2 t2 :
  vcsEnabled e = true ->
  getCurrentVersion spawn e r = (Ok local, r1, t1) ->
  getUpstreamVersion spawn e r1 = (Ok remote, r2, t2) ->
  toLowerCase local <> toLowerCase remote ->
  exit_code (fst (spawn "git" ["git"; "pull"] r2)) = Some 0%Z ->
  trim (join (stdout_data (fst (spawn "git" ["git"; "pull"] r2)))) = "" ->
  update spawn e then_ r =
    (fst (fst (call_then then_ "Failure" (snd (spawn "git" ["git"; "pull"] r2)))),
     snd (fst (call_then then_ "Failure" (snd (spawn "git" ["git"; "pull"] r2)))),
     ((t1 ++ t2 ++ [pull])
        ++ snd (call_then then_ "Failure"
                  (snd (spawn "git" ["git"; "pull"] r2))))%list).
Proof.
  intros H E1 E2 Ne Ex Out.
  unfold update, bind. rewrite H. cbn [negb]. rewrite E1, E2.
  apply String.eqb_neq in Ne. rewrite Ne.
  rewrite execGit_run. change (split " " "git pull") with ["git"; "pull"].
  rewrite Ex, Out. cbn [falsy].
  destruct (call_then then_ "Failure" _) as [[o r4] t]. cbn [fst snd].
  rewrite <- !app_assoc. reflexivity.
Qed.

(** The branch of [update] where the pull exits with 0 and has printed
    something. *)
Lemma update_success_branch e then_ r local r1 t1 remote r2 t2 :
  vcsEnabled e = true ->
  getCurrentVersion spawn e r = (Ok local, r1, t1) ->
  getUpstreamVersion spawn e r1 = (Ok remote, r2, t2) ->
  toLowerCase local <> toLowerCase remote ->
  exit_code (fst (spawn "git" ["git"; "pull"] r2)) = Some 0%Z ->
  trim (join (stdout_data (fst (spawn "git" ["git"; "pull"] r2)))) <> "" ->
  forall r3 v r4,
    r3 = snd (spawn "git" ["git"; "pull"] r2) ->
    v = version_of (fst (spawn "git" rev_parse_HEAD r3)) ->
    r4 = snd (spawn "git" rev_parse_HEAD r3) ->
    update spawn e then_ r =
      (fst (fst (call_then then_ v r4)),
       snd (fst (call_then then_ v r4)),
       ((t1 ++ t2 ++ [pull; Spawn "git" rev_parse_HEAD])
          ++ snd (call_then then_ v r4))%list).
Proof.
  intros H E1 E2 Ne Ex Out r3 v r4 -> -> ->.
  unfold update, bind. rewrite H. cbn [negb]. rewrite E1, E2.
  apply String.eqb_neq in Ne. rewrite Ne.
  rewrite execGit_run. change (split " " "git pull") with ["git"; "pull"].
  rewrite Ex.
  destruct (trim (join (stdout_data (fst (spawn "git" ["git"; "pull"] r2)))))
    as [|c out]; [congruence|].
  cbn [falsy]. rewrite (getCurrentVersion_run e _ H).
  destruct (call_then then_ _ _) as [[o r5] t]. cbn [fst snd].
  rewrite <- !app_assoc. reflexivity.
Qed.

(** C10. [update] without a callback never ends fulfilled, and this is why:
    branch by branch, [update] ends in a call of its callback, so that
    without one a [TypeError] is thrown where the call would be.  With
    version control off the callback is called with [Failure] at once;
    with version control on, after the two queries, it is called with the
    current version when the versions are equal up to case, with
    [Failure] after a pull that exits with 0 and prints nothing, and with
    the version read anew after a pull that exits with 0 and prints
    something.  The one run of [update] that does not reach its callback
    is the one where the pull does not exit with 0: there the rejection of
    the pull is the rejection of [update], callback or not. *)
Theorem update_requires_callback e r :
  (exists err r1 t, update spawn e None r = (Throw err, r1, t))
  /\ (vcsEnabled e = false -> Branches.calls_back spawn e r "Failure" r [])
  /\ (vcsEnabled e = true ->
      exists local r1 t1 remote r2 t2,
        getCurrentVersion spawn e r = (Ok local, r1, t1)
        /\ getUpstreamVersion spawn e r1 = (Ok remote, r2, t2)
        /\ (toLowerCase local = toLowerCase remote ->
            Branches.calls_back spawn e r local r2 (t1 ++ t2)%list)
        /\ (toLowerCase local <> toLowerCase remote ->
            let run := fst (spawn "git" ["git"; "pull"] r2) in
            let r3 := snd (spawn "git" ["git"; "pull"] r2) in
            let out := trim (join (stdout_data run)) in
            (exit_code run <> Some 0%Z ->
             forall then_,
               update spawn e then_ r =
                 (Throw (Reason (trim (join (stderr_data run)))), r3,
                  (t1 ++ t2 ++ [pull])%list))
            /\ (exit_code run = Some 0%Z -> out = "" ->
                Branches.calls_back spawn e r "Failure" r3
                  (t1 ++ t2 ++ [pull])%list)
            /\ (exit_code run = Some 0%Z -> out <> "" ->
                Branches.calls_back spawn e r
                  (version_of (fst (spawn "git" rev_parse_HEAD r3)))
                  (snd (spawn "git" rev_parse_HEAD r3))
                  (t1 ++ t2 ++ [pull; Spawn "git" rev_parse_HEAD])%list))).
Proof.
  split; [|split].
  - destruct (update_routes e r)
      as [(v & r0 & t0 & Q & U) | (text & r1 & t0 & Q & U)].
    + rewrite U. cbn. eauto.
    + rewrite U. eauto.
  - intros H. apply calls_back_intro; [constructor|].
    intros then_. apply update_disabled_branch, H.
  - intros H.
    destruct (getCurrentVersion_ok e r) as (local & r1 & t1 & E1 & Q1).
    destruct (getUpstreamVersion_ok e r1) as (remote & r2 & t2 & E2 & Q2).
    apply query_is_spawn in Q1, Q2.
    assert (Q12 : Forall is_spawn (t1 ++ t2)%list) by (apply Forall_app; auto).
    assert (Qp : Forall is_spawn (t1 ++ t2 ++ [pull])%list).
    { rewrite app_assoc. apply Forall_app; split; auto.
      repeat constructor. }
    exists local, r1, t1, remote, r2, t2.
    split; [exact E1|]. split; [exact E2|]. split.
    + intros Eq. apply calls_back_intro; [exact Q12|].
      intros then_. rewrite <- app_assoc.
      apply (update_equal_branch e then_ r local r1 t1 remote r2 t2);
        assumption.
    + intros Ne. cbv zeta. split; [|split].
      * intros Ex then_.
        apply (update_pull_rejected e then_ r local r1 t1 remote r2 t2);
          assumption.
      * intros Ex Out. apply calls_back_intro; [exact Qp|].
        intros then_.
        apply (update_silent_branch e then_ r local r1 t1 remote r2 t2);
          assumption.
      * intros Ex Out. apply calls_back_intro.
        { replace (t1 ++ t2 ++ [pull; Spawn "git" rev_parse_HEAD])%list
            with ((t1 ++ t2 ++ [pull]) ++ [Spawn "git" rev_parse_HEAD])%list
            by (rewrite <- !app_assoc; reflexivity).
          apply Forall_app; split; auto. repeat constructor. }
        intros then_.
        exact (update_success_branch e then_ r local r1 t1 remote r2 t2
                 H E1 E2 Ne Ex Out _ _ _ eq_refl eq_refl eq_refl).
Qed.

(** C8. Two calls of [getCurrentVersion] in a row, the second in the
    state the first left, give the same value when [git rev-parse HEAD]
    runs alike both times; with version control on each call spawns its
    own process and the second value is read from the second run. *)
Theorem getCurrentVersion_twice e r o1 r1 t1 o2 r2 t2 :
  getCurrentVersion spawn e r = (o1, r1, t1) ->
  getCurrentVersion spawn e r1 = (o2, r2, t2) ->
  fst (spawn "git" rev_parse_HEAD r) = fst (spawn "git" rev_parse_HEAD r1) ->
  o1 = o2
  /\ (vcsEnabled e = true ->
      t1 = [Spawn "git" rev_parse_HEAD]
      /\ t2 = [Spawn "git" rev_parse_HEAD]
      /\ o2 = Ok (version_of (fst (spawn "git" rev_parse_HEAD r1)))).
Proof.
  intros E1 E2 Same. destruct (vcsEnabled e) eqn:H.
  - rewrite getCurrentVersion_run in E1, E2 by exact H.
    injection E1 as <- <- <-. injection E2 as <- <- <-.
    rewrite Same. auto.
  - rewrite getCurrentVersion_off in E1, E2 by exact H.
    injection E1 as <- <- <-. injection E2 as <- <- <-.
    split; [reflexivity|discriminate].
Qed.

(** C6, as amended. [execGit] spawns git with the argument string cut
    at every space character (U+0020) and nowhere else; when the process
    exits the promise is rejected with the trimmed concatenation of the
    chunks of stderr exactly when the exit code is not 0, and is
    fulfilled with the trimmed concatenation of the chunks of stdout
    otherwise. *)
Theorem execGit_contract args r :
  let argv := split " " args in
  let run := fst (spawn "git" argv r) in
  String.concat " " argv = args
  /\ Forall (fun a => occurs " " a = false) argv
  /\ exists o,
      execGit spawn args r =
        (o, snd (spawn "git" argv r), [Spawn "git" argv])
      /\ (exit_code run <> Some 0%Z <->
          o = Throw (Reason (trim (join (stderr_data run)))))
      /\ (exit_code run = Some 0%Z <->
          o = Ok (trim (join (stdout_data run)))).
Proof.
  cbv zeta. split; [apply split_concat|]. split; [apply split_pieces|].
  rewrite execGit_run. eexists. split; [reflexivity|].
  destruct (exit_code _) as [[|c|c]|];
    repeat split; intros; congruence.
Qed.

End GitFacts.

(** *** The engine on concrete inputs *)

Import Sample.

(** The three scenarios of the specification. *)
Example scenario_A :
  getCurrentVersion scripted acme [head_at "abcdef1234567890"] =
    (Ok "abcdef1", [], [Spawn "git" rev_parse_HEAD]).
Proof. reflexivity. Qed.

Example scenario_B :
  getCurrentVersion scripted acme
    [exits 128 [] ["fatal: not a git repository"]] =
    (Ok "unknown", [], [Spawn "git" rev_parse_HEAD]).
Proof. reflexivity. Qed.

Example scenario_C :
  snd (update scripted acme (Some quiet)
         [head_at "1234567890abcdef"; head_at "main"; head_at "abcdef1234";
          exits 0 ["Fast-forward"] []; head_at "abcdef1234567890"]) =
    [Spawn "git" rev_parse_HEAD;
     Spawn "git" ["rev-parse"; "--abbrev-ref"; "HEAD"];
     Spawn "git" ["ls-remote"; "git@github.com:acme/bot.git"; "|"; "grep";
                  "refs/heads/main"; "|"; "cut"; "-f"; "1"];
     pull;
     Spawn "git" rev_parse_HEAD;
     Called "abcdef1"].
Proof. vm_compute. reflexivity. Qed.

(** C1. A superuser who is not a member of the guild: [has] throws
    instead of returning [true]. *)
Theorem has_superuser_stranger :
  In (user_id root) (superPerms (opts acme))
  /\ member elsewhere root = None
  /\ has acme root 8 elsewhere =
       Throw (TypeError "Cannot read property 'hasPermission' of null")
  /\ has acme root 8 home = Ok true.
Proof. repeat split. left; reflexivity. Qed.

(** C2. Versions differ and the pull exits with 1: [update] is rejected
    with the text of stderr and the callback has not been called. *)
Theorem update_pull_failure_rejects :
  vcsEnabled acme = true
  /\ update scripted acme (Some quiet) behind_pull_fails =
       (Throw (Reason "git: 'git' is not a git command. See 'git --help'."),
        [],
        [Spawn "git" ["rev-parse"; "HEAD"];
         Spawn "git" ["rev-parse"; "--abbrev-ref"; "HEAD"];
         Spawn "git" ["ls-remote"; "git@github.com:acme/bot.git"; "|";
                      "grep"; "refs/heads/main"; "|"; "cut"; "-f"; "1"];
         pull]).
Proof. split; vm_compute; reflexivity. Qed.

(** C3. An identifier of three segments leaves version control on, and
    the version queries answer with what git says. *)
Theorem nested_identifier_enabled :
  vcsEnabled (new_IvyEngine nested) = true
  /\ getCurrentVersion scripted (new_IvyEngine nested)
       [head_at "abcdef1234567890"] =
       (Ok "abcdef1", [], [Spawn "git" rev_parse_HEAD])
  /\ getReleaseChannel scripted (new_IvyEngine nested) [head_at "main"] =
       (Ok "main", [], [Spawn "git" ["rev-parse"; "--abbrev-ref"; "HEAD"]]).
Proof. repeat split; vm_compute; reflexivity. Qed.


(** C6, the claim as stated fails: a tab does not cut the argument
    string. *)
Lemma execGit_keeps_tab :
  snd (execGit scripted tabbed []) = [Spawn "git" [tabbed]]
  /\ Spec.split_on_whitespace tabbed = ["log"; "-1"]
  /\ Spec.words tabbed = ["log"; "-1"]
  /\ split " " tabbed <> Spec.split_on_whitespace tabbed
  /\ split " " tabbed <> Spec.words tabbed.
Proof. repeat split; try (vm_compute; reflexivity); discriminate. Qed.

(** [update_noop] on a repository that is up to date. *)
Lemma update_noop_witness :
  vcsEnabled acme = true
  /\ toLowerCase "abcdef1" = toLowerCase "ABCDEF1"
  /\ exists o r3 t,
      update scripted acme (Some quiet) up_to_date = (o, r3, t)
      /\ (o, r3) = quiet "abcdef1" []
      /\ t = ([Spawn "git" rev_parse_HEAD]
              ++ [Spawn "git" ["rev-parse"; "--abbrev-ref"; "HEAD"];
                  Spawn "git" ["ls-remote"; "git@github.com:acme/bot.git";
                               "|"; "grep"; "refs/heads/main"; "|"; "cut";
                               "-f"; "1"]]
              ++ [Called "abcdef1"])%list
      /\ Forall is_query
           ([Spawn "git" rev_parse_HEAD]
              ++ [Spawn "git" ["rev-parse"; "--abbrev-ref"; "HEAD"];
                  Spawn "git" ["ls-remote"; "git@github.com:acme/bot.git";
                               "|"; "grep"; "refs/heads/main"; "|"; "cut";
                               "-f"; "1"]])%list
      /\ ~ In pull t.
Proof.
  split; [reflexivity|]. split; [reflexivity|].
  apply (update_noop scripted acme quiet up_to_date
           "abcdef1" (tl up_to_date) _ "ABCDEF1" [] _);
    reflexivity.
Defined.

(** [update_both_unknown] where every git command fails. *)
Lemma update_both_unknown_witness :
  vcsEnabled acme = true
  /\ exists o r3 t,
      update scripted acme (Some quiet) all_fail = (o, r3, t)
      /\ (o, r3) = quiet "unknown" []
      /\ t = ([Spawn "git" rev_parse_HEAD]
              ++ [Spawn "git" ["rev-parse"; "--abbrev-ref"; "HEAD"];
                  Spawn "git" ["ls-remote"; "git@github.com:acme/bot.git";
                               "|"; "grep"; "refs/heads/unknown"; "|"; "cut";
                               "-f"; "1"]]
              ++ [Called "unknown"])%list
      /\ ~ In pull t.
Proof.
  split; [reflexivity|].
  apply (update_both_unknown scripted acme quiet all_fail
           (tl all_fail) _ [] _);
    reflexivity.
Defined.

(** [getCurrentVersion_twice] on a repository that stays at one commit. *)
Lemma getCurrentVersion_twice_witness :
  fst (scripted "git" rev_parse_HEAD
         [head_at "abcdef1234567890"; head_at "abcdef1234567890"])
  = fst (scripted "git" rev_parse_HEAD [head_at "abcdef1234567890"])
  /\ (Ok "abcdef1" = Ok "abcdef1"
      /\ (vcsEnabled acme = true ->
          [Spawn "git" rev_parse_HEAD] = [Spawn "git" rev_parse_HEAD]
          /\ [Spawn "git" rev_parse_HEAD] = [Spawn "git" rev_parse_HEAD]
          /\ Ok "abcdef1" =
               Ok (version_of
                     (fst (scripted "git" rev_parse_HEAD
                             [head_at "abcdef1234567890"]))))).
Proof.
  split; [reflexivity|].
  apply (getCurrentVersion_twice scripted acme
           [head_at "abcdef1234567890"; head_at "abcdef1234567890"]
           (Ok "abcdef1") [head_at "abcdef1234567890"]
           [Spawn "git" rev_parse_HEAD]
           (Ok "abcdef1") [] [Spawn "git" rev_parse_HEAD]);
    reflexivity.
Defined.

End IvyFacts.

(** ** Facts about construction *)

Module BootFacts.
Import Js Ivy Boot.





















(** *** The registry against the registrations *)




















(** The sample bot, started with a start-up runnable. *)
Example construct_a_bot :
  snd (construct Sample.events Sample.with_startup Sample.a_bot) =
    [NewClient; ModuleRegistered Sample.events;
     Enter Commands; CommandRegistered "ping" {| command_tag := 0 |};
     Enter Flows; FlowRegistered {| flow_tag := 0 |} None;
     Enter Modules; ModuleRegistered Sample.music;
     ModuleRegistered Sample.events';
     Enter Startup; ModuleRegistered Sample.late;
     ModuleInit Sample.events'; ModuleInit Sample.music;
     ModuleInit Sample.late;
     Login "t"; OnReady].
Proof. reflexivity. Qed.

End BootFacts.

(** ** More facts about the string primitives *)

Module JsMore.
Import Js JsFacts Shape.

Lemma append_empty_r s : s ++ "" = s.
Proof. induction s as [|c s IH]; simpl; congruence. Qed.

Lemma append_assoc s1 s2 s3 : (s1 ++ s2) ++ s3 = s1 ++ s2 ++ s3.
Proof. induction s1 as [|c s1 IH]; simpl; congruence. Qed.

Lemma length_append s1 s2 :
  String.length (s1 ++ s2) = String.length s1 + String.length s2.
Proof. induction s1 as [|c s1 IH]; simpl; congruence. Qed.

Lemma all_chars_append p s1 s2 :
  all_chars p (s1 ++ s2) = all_chars p s1 && all_chars p s2.
Proof.
  induction s1 as [|c s1 IH]; simpl; auto.
  rewrite IH. apply andb_assoc.
Qed.

Lemma last_of_append prev s1 s2 :
  last_of prev (s1 ++ s2) = last_of (last_of prev s1) s2.
Proof. revert prev; induction s1 as [|c s1 IH]; intros prev; simpl; auto. Qed.

(** A run of characters of a class that is not empty ends in a character
    of the class, and so does everything read up to its end. *)
Lemma last_of_run p run : forall prev,
  all_chars p run = true ->
  run <> "" ->
  exists c, last_of prev run = Some c /\ p c = true.
Proof.
  induction run as [|c run IH]; intros prev A N; [congruence|].
  simpl in A. apply andb_true_iff in A as [Hc A].
  destruct run as [|c' run'].
  - exists c. auto.
  - apply (IH (Some c)); [exact A|discriminate].
Qed.

(** A run that is not empty is a shorter run and its last character. *)
Lemma run_snoc p run :
  all_chars p run = true ->
  run <> "" ->
  exists front c, run = front ++ String c "" /\ p c = true.
Proof.
  induction run as [|c run IH]; intros A N; [congruence|].
  simpl in A. apply andb_true_iff in A as [Hc A].
  destruct run as [|c' run'].
  - exists "", c. auto.
  - destruct IH as (front & z & E & Hz); [exact A|discriminate|].
    exists (String c front), z. simpl. rewrite <- E. auto.
Qed.

(** What a successful [repeat_m] has read: a run of the class, of a
    length within the bounds, and the continuation has accepted what
    follows it. *)
Lemma repeat_m_consumes p k s : forall lo hi prev,
  repeat_m p lo hi k prev s = true ->
  exists run rest,
    s = run ++ rest
    /\ all_chars p run = true
    /\ lo <= String.length run
    /\ fits hi (String.length run)
    /\ k (last_of prev run) rest = true.
Proof.
  induction s as [|c s IH]; intros lo hi prev H; simpl in H.
  - apply andb_true_iff in H as [L H]. apply Nat.eqb_eq in L. subst lo.
    exists "", "". repeat split; auto.
    destruct hi; simpl; lia.
  - assert (Stop : (lo =? 0) && k prev (String c s) = true ->
                   exists run rest,
                     String c s = run ++ rest
                     /\ all_chars p run = true
                     /\ lo <= String.length run
                     /\ fits hi (String.length run)
                     /\ k (last_of prev run) rest = true).
    { intros E. apply andb_true_iff in E as [L E].
      apply Nat.eqb_eq in L. subst lo.
      exists "", (String c s). repeat split; auto.
      destruct hi; simpl; lia. }
    destruct (p c) eqn:Pc; [|exact (Stop H)].
    destruct (can_take hi) eqn:Ct; [|exact (Stop H)].
    cbn [andb] in H. apply orb_true_iff in H as [H|H]; [|exact (Stop H)].
    apply IH in H as (run & rest & -> & A & Lo & Hi & K).
    exists (String c run), rest. simpl. rewrite Pc, A.
    repeat split; auto.
    + lia.
    + destruct hi as [[|h]|]; simpl in *; try discriminate; lia.
Qed.


Lemma search_position r s : forall prev,
  search r prev s = true ->
  exists pre rest,
    s = pre ++ rest /\ matches r accept (last_of prev pre) rest = true.
Proof.
  induction s as [|c s IH]; intros prev H; simpl in H.
  - rewrite orb_false_r in H. exists "", "". auto.
  - apply orb_true_iff in H as [H|H].
    + exists "", (String c s). auto.
    + apply IH in H as (pre & rest & -> & M).
      exists (String c pre), rest. auto.
Qed.

Lemma search_finds r pre rest : forall prev,
  matches r accept (last_of prev pre) rest = true ->
  search r prev (pre ++ rest) = true.
Proof.
  induction pre as [|c pre IH]; intros prev M; simpl in *.
  - destruct rest; simpl; rewrite M; reflexivity.
  - rewrite (IH (Some c) M). apply orb_true_r.
Qed.

(** *** [trim] *)

Lemma trimEnd_idem s : trimEnd (trimEnd s) = trimEnd s.
Proof.
  induction s as [|c s IH]; [reflexivity|]. simpl.
  destruct (trimEnd s) as [|c' t] eqn:E.
  - destruct (is_space c) eqn:Sc; simpl; [reflexivity|].
    rewrite Sc. reflexivity.
  - change (trimEnd (String c (String c' t)))
      with (match trimEnd (String c' t) with
            | EmptyString =>
                if is_space c then EmptyString else String c EmptyString
            | String x y => String c (String x y)
            end).
    rewrite IH. reflexivity.
Qed.

Lemma trimStart_clean s : starts_clean (trimStart s).
Proof.
  induction s as [|c s IH]; simpl; auto.
  destruct (is_space c) eqn:Sc; simpl; auto.
Qed.

Lemma trimEnd_clean s : starts_clean s -> starts_clean (trimEnd s).
Proof.
  destruct s as [|c s]; simpl; auto. intros Sc.
  destruct (trimEnd s); [rewrite Sc|]; simpl; auto.
Qed.

Lemma trimStart_of_clean s : starts_clean s -> trimStart s = s.
Proof. destruct s as [|c s]; simpl; auto. intros ->. reflexivity. Qed.

(** A trimmed string is left alone by [trim]. *)
Lemma trim_idem s : trim (trim s) = trim s.
Proof.
  unfold trim.
  rewrite (trimStart_of_clean (trimEnd (trimStart s))).
  - apply trimEnd_idem.
  - apply trimEnd_clean, trimStart_clean.
Qed.

(** *** [split] *)

Lemma occurs_append c s1 s2 :
  occurs c (s1 ++ s2) = occurs c s1 || occurs c s2.
Proof.
  induction s1 as [|a s1 IH]; simpl; auto.
  rewrite IH. apply orb_assoc.
Qed.

Lemma split_whole sep s : occurs sep s = false -> split sep s = [s].
Proof.
  induction s as [|c s IH]; simpl; auto. intros H.
  apply orb_false_iff in H as [Hc Hs]. rewrite Hc, (IH Hs). reflexivity.
Qed.

(** The first piece ends at the first separator. *)
Lemma split_cut sep a b :
  occurs sep a = false ->
  split sep (a ++ String sep b) = a :: split sep b.
Proof.
  induction a as [|c a IH]; simpl; intros H.
  - rewrite Ascii.eqb_refl. reflexivity.
  - apply orb_false_iff in H as [Hc Ha]. rewrite Hc, (IH Ha). reflexivity.
Qed.

Lemma split_length sep s :
  List.length (split sep s) = S (count sep s).
Proof.
  induction s as [|c s IH]; simpl; auto.
  destruct (Ascii.eqb c sep); simpl; [congruence|].
  destruct (split sep s); simpl in *; congruence.
Qed.

End JsMore.

(** ** More facts about the engine *)

Module IvyMore.
Import Js JsFacts Shape JsMore Ivy IvyFacts.

(** *** The two patterns, exactly *)

Lemma next_char_run p run post :
  all_chars p run = true ->
  run <> "" ->
  exists c, next_char (run ++ post) = Some c /\ p c = true.
Proof.
  destruct run as [|c run]; intros A N; [congruence|].
  simpl in A. apply andb_true_iff in A as [Pc _]. exists c. auto.
Qed.

Lemma nonempty_of_length s n : n <= String.length s -> 0 < n -> s <> "".
Proof. intros L P ->. simpl in L. lia. Qed.

Lemma HASH_PATTERN_finds s : test HASH_PATTERN s = true -> has_hash s.
Proof.
  unfold test. intros H.
  apply search_position in H as (pre & rest & -> & M).
  unfold HASH_PATTERN in M. cbn [matches] in M.
  apply andb_true_iff in M as [B1 M].
  apply repeat_m_consumes in M as (run & post & -> & A & Lo & Hi & K).
  cbn [matches accept] in K. rewrite andb_true_r in K.
  assert (N : run <> "") by (apply (nonempty_of_length run 5); lia).
  destruct (next_char_run is_hex run post A N) as (c & Ec & Pc).
  destruct (last_of_run is_hex run (last_of None pre) A N) as (z & Ez & Pz).
  rewrite Ec in B1. rewrite Ez in K. cbn [word_at] in B1, K.
  rewrite (is_hex_word c Pc) in B1. rewrite (is_hex_word z Pz) in K.
  exists pre, run, post. repeat split; auto.
  - destruct (word_at (last_of None pre)); [discriminate|reflexivity].
  - destruct (word_at (next_char post)); [discriminate|reflexivity].
Qed.


Lemma repeat_m_zero_accept p hi s : forall prev,
  repeat_m p 0 hi accept prev s = true.
Proof.
  destruct s as [|c s]; intros prev; simpl; auto.
  destruct (p c && can_take hi); auto. apply orb_true_r.
Qed.

Lemma slash_not_word : is_word "/" = false.
Proof. reflexivity. Qed.

Lemma GIT_REPO_PATTERN_finds s : test GIT_REPO_PATTERN s = true -> has_repo s.
Proof.
  unfold test. intros H.
  apply search_position in H as (pre & rest & -> & M).
  unfold GIT_REPO_PATTERN in M. cbn [matches] in M.
  apply repeat_m_consumes in M as (owner & tail & -> & A & Lo & _ & K).
  destruct tail as [|c tail]; [discriminate|].
  apply andb_true_iff in K as [Hc K]. apply Ascii.eqb_eq in Hc. subst c.
  apply repeat_m_consumes in K as (repo & post & -> & A' & Lo' & _ & _).
  assert (N : owner <> "") by (apply (nonempty_of_length owner 1); lia).
  destruct (run_snoc is_word owner A N) as (front & a & -> & Pa).
  destruct repo as [|b repo]; [simpl in Lo'; lia|].
  simpl in A'. apply andb_true_iff in A' as [Pb _].
  exists (pre ++ front), a, b, (repo ++ post). repeat split; auto.
  rewrite !append_assoc. reflexivity.
Qed.

Lemma GIT_REPO_PATTERN_found s : has_repo s -> test GIT_REPO_PATTERN s = true.
Proof.
  intros (pre & a & b & post & -> & Pa & Pb).
  unfold test. apply search_finds.
  unfold GIT_REPO_PATTERN. cbn [matches repeat_m].
  rewrite Pa. cbn [can_take andb one_less option_map pred].
  apply orb_true_iff; left.
  rewrite slash_not_word. cbn [andb Nat.eqb].
  rewrite Ascii.eqb_refl, Pb. cbn [can_take andb one_less option_map pred].
  rewrite repeat_m_zero_accept. reflexivity.
Qed.

Lemma vcsEnabled_on o :
  init_vcsEnabled o = true -> exists s, gitRepo o = Some s /\ has_repo s.
Proof.
  unfold init_vcsEnabled.
  destruct (gitRepo o) as [s|]; [|discriminate].
  cbn [ToStringU]. intros H. exists s. split; [reflexivity|].
  apply GIT_REPO_PATTERN_finds.
  destruct (test GIT_REPO_PATTERN s); [reflexivity|].
  destruct (truthy (Some s)); discriminate.
Qed.

(** X1. Version control is on exactly when an identifier is given and it
    holds, anywhere in it, a slash with a word character on either
    side. *)
Theorem vcsEnabled_iff o :
  init_vcsEnabled o = true <-> exists s, gitRepo o = Some s /\ has_repo s.
Proof.
  split; [apply vcsEnabled_on|].
  unfold init_vcsEnabled.
  - intros (s & -> & R). cbn [ToStringU].
    rewrite (GIT_REPO_PATTERN_found s R).
    destruct R as (pre & a & b & post & -> & _).
    destruct pre; reflexivity.
Qed.

(** *** The git subsystem *)

Section GitMore.

Context {Repo : Type}.
Variable spawn : string -> list string -> Repo -> ProcessRun * Repo.

Lemma getReleaseChannel_run e r :
  vcsEnabled e = true ->
  getReleaseChannel spawn e r =
    (Ok (channel_of (fst (spawn "git" abbrev_ref_HEAD r))),
     snd (spawn "git" abbrev_ref_HEAD r),
     [Spawn "git" abbrev_ref_HEAD]).
Proof.
  intros H. unfold getReleaseChannel, bind, catch_null. rewrite H.
  cbn [negb]. rewrite execGit_run.
  change (split " " "rev-parse --abbrev-ref HEAD") with abbrev_ref_HEAD.
  unfold channel_of.
  destruct (exit_code (fst (spawn "git" abbrev_ref_HEAD r))) as [[|c|c]|];
    try reflexivity.
  cbv zeta. destruct (falsy _ || startsWith "fatal" _); reflexivity.
Qed.

Lemma getUpstreamVersion_run e r :
  vcsEnabled e = true ->
  forall argv,
    argv = split " " ("ls-remote git@github.com:"
                        ++ ToStringU (gitRepo (opts e))
                        ++ ".git | grep refs/heads/"
                        ++ channel_of (fst (spawn "git" abbrev_ref_HEAD r))
                        ++ " | cut -f 1") ->
    getUpstreamVersion spawn e r =
      (Ok (upstream_of (fst (spawn "git" argv (snd (spawn "git" abbrev_ref_HEAD r))))),
       snd (spawn "git" argv (snd (spawn "git" abbrev_ref_HEAD r))),
       [Spawn "git" abbrev_ref_HEAD; Spawn "git" argv]).
Proof.
  intros H argv ->. unfold getUpstreamVersion. rewrite H. cbn [negb].
  unfold bind at 1. rewrite (getReleaseChannel_run e r H).
  unfold bind, catch_null. rewrite execGit_run. unfold upstream_of.
  destruct (exit_code _) as [[|c|c]|]; try reflexivity.
  cbv zeta. destruct (falsy _); reflexivity.
Qed.

Lemma has_hash_length s : has_hash s -> 5 <= String.length s.
Proof.
  intros (pre & run & post & -> & _ & [Lo _] & _).
  rewrite !length_append. lia.
Qed.


Lemma substr_0_7_length s :
  s <> "" -> 1 <= String.length (substr 0 7 s) <= 7.
Proof.
  intros N. unfold substr. rewrite prefix_length.
  destruct s; [congruence|]. cbn [String.length]. lia.
Qed.

(** X6. When neither the identifier nor the branch name holds a space,
    the remote query is one call of git with nine arguments: the two pipe
    signs and the words [grep] and [cut] are arguments like the others. *)
Theorem getUpstreamVersion_argv e r repo :
  vcsEnabled e = true ->
  gitRepo (opts e) = Some repo ->
  occurs " " repo = false ->
  occurs " " (channel_of (fst (spawn "git" abbrev_ref_HEAD r))) = false ->
  snd (getUpstreamVersion spawn e r) =
    [Spawn "git" abbrev_ref_HEAD;
     Spawn "git"
       (ls_remote repo (channel_of (fst (spawn "git" abbrev_ref_HEAD r))))].
Proof.
  intros H G Sr Sc.
  rewrite (getUpstreamVersion_run e r H _ eq_refl). cbn [snd].
  rewrite G. cbn [ToStringU].
  set (ch := channel_of (fst (spawn "git" abbrev_ref_HEAD r))) in *.
  do 2 f_equal. f_equal. unfold ls_remote.
  change ("ls-remote git@github.com:" ++ repo ++ ".git | grep refs/heads/"
            ++ ch ++ " | cut -f 1")
    with ("ls-remote" ++ String " " ("git@github.com:" ++ repo
            ++ ".git | grep refs/heads/" ++ ch ++ " | cut -f 1")).
  rewrite split_cut by reflexivity. f_equal.
  replace ("git@github.com:" ++ repo ++ ".git | grep refs/heads/"
             ++ ch ++ " | cut -f 1")
    with (("git@github.com:" ++ repo ++ ".git")
            ++ String " " ("| grep refs/heads/" ++ ch ++ " | cut -f 1"))
    by (rewrite !append_assoc; reflexivity).
  rewrite split_cut
    by (rewrite !occurs_append, Sr; reflexivity).
  f_equal.
  change ("| grep refs/heads/" ++ ch ++ " | cut -f 1")
    with ("|" ++ String " " ("grep" ++ String " "
            ("refs/heads/" ++ ch ++ " | cut -f 1"))).
  rewrite split_cut by reflexivity. f_equal.
  rewrite split_cut by reflexivity. f_equal.
  replace ("refs/heads/" ++ ch ++ " | cut -f 1")
    with (("refs/heads/" ++ ch) ++ String " " "| cut -f 1")
    by (rewrite !append_assoc; reflexivity).
  rewrite split_cut
    by (rewrite !occurs_append, Sc; reflexivity).
  reflexivity.
Qed.

(** X7. [execGit] hands git one argument more than the argument string
    holds spaces; an empty argument string gives one empty argument. *)
Theorem execGit_argument_count args r :
  exists argv,
    snd (execGit spawn args r) = [Spawn "git" argv]
    /\ List.length argv = S (count " " args)
    /\ (args = "" -> argv = [""]).
Proof.
  exists (split " " args). rewrite execGit_run. cbn [snd].
  split; [reflexivity|]. split; [apply split_length|].
  intros ->. reflexivity.
Qed.

(** X8. When the versions differ and the pull exits with 0 and has
    printed something, [update] asks for the current version once more,
    after the pull, and calls back with that answer: the value read from
    the new run of [git rev-parse HEAD], not the upstream value. *)
Theorem update_pull_success e then_ r local r1 t1 remote r2 t2 :
  vcsEnabled e = true ->
  getCurrentVersion spawn e r = (Ok local, r1, t1) ->
  getUpstreamVersion spawn e r1 = (Ok remote, r2, t2) ->
  toLowerCase local <> toLowerCase remote ->
  exit_code (fst (spawn "git" ["git"; "pull"] r2)) = Some 0%Z ->
  trim (join (stdout_data (fst (spawn "git" ["git"; "pull"] r2)))) <> "" ->
  let r3 := snd (spawn "git" ["git"; "pull"] r2) in
  let version := version_of (fst (spawn "git" rev_parse_HEAD r3)) in
  let r4 := snd (spawn "git" rev_parse_HEAD r3) in
  update spawn e (Some then_) r =
    (fst (then_ version r4), snd (then_ version r4),
     (t1 ++ t2 ++ [pull; Spawn "git" rev_parse_HEAD; Called version])%list).
Proof.
  intros H E1 E2 Ne Ex Out. cbv zeta.
  unfold update, bind. rewrite H. cbn [negb]. rewrite E1, E2.
  apply String.eqb_neq in Ne. rewrite Ne.
  rewrite execGit_run. change (split " " "git pull") with ["git"; "pull"].
  rewrite Ex.
  destruct (trim (join (stdout_data (fst (spawn "git" ["git"; "pull"] r2)))))
    as [|c out] eqn:T; [congruence|].
  cbn [falsy]. rewrite (getCurrentVersion_run spawn e _ H).
  cbn [call_then]. destruct (then_ _ _) as [o r5]. reflexivity.
Qed.

(** X9. When the versions differ and the pull exits with 0 without having
    printed anything but white space, [update] calls back with [Failure]
    and does not ask for the version again. *)
Theorem update_pull_silent e then_ r local r1 t1 remote r2 t2 :
  vcsEnabled e = true ->
  getCurrentVersion spawn e r = (Ok local, r1, t1) ->
  getUpstreamVersion spawn e r1 = (Ok remote, r2, t2) ->
  toLowerCase local <> toLowerCase remote ->
  exit_code (fst (spawn "git" ["git"; "pull"] r2)) = Some 0%Z ->
  trim (join (stdout_data (fst (spawn "git" ["git"; "pull"] r2)))) = "" ->
  let r3 := snd (spawn "git" ["git"; "pull"] r2) in
  update spawn e (Some then_) r =
    (fst (then_ "Failure" r3), snd (then_ "Failure" r3),
     (t1 ++ t2 ++ [pull; Called "Failure"])%list).
Proof.
  intros H E1 E2 Ne Ex Out. cbv zeta.
  unfold update, bind. rewrite H. cbn [negb]. rewrite E1, E2.
  apply String.eqb_neq in Ne. rewrite Ne.
  rewrite execGit_run. change (split " " "git pull") with ["git"; "pull"].
  rewrite Ex, Out. cbn [falsy call_then].
  destruct (then_ _ _) as [o r5]. reflexivity.
Qed.

(** X10. When the versions differ and the pull does not exit with 0,
    [update] is rejected with the trimmed text of stderr, with or without
    a callback, and no callback has been called. *)
Theorem update_pull_nonzero e then_ r local r1 t1 remote r2 t2 :
  vcsEnabled e = true ->
  getCurrentVersion spawn e r = (Ok local, r1, t1) ->
  getUpstreamVersion spawn e r1 = (Ok remote, r2, t2) ->
  toLowerCase local <> toLowerCase remote ->
  exit_code (fst (spawn "git" ["git"; "pull"] r2)) <> Some 0%Z ->
  update spawn e then_ r =
    (Throw (Reason (trim (join (stderr_data
                                  (fst (spawn "git" ["git"; "pull"] r2)))))),
     snd (spawn "git" ["git"; "pull"] r2),
     (t1 ++ t2 ++ [pull])%list)
  /\ forall v, ~ In (Called v) (t1 ++ t2 ++ [pull])%list.
Proof.
  intros H E1 E2 Ne Ex. split.
  - apply (update_pull_rejected spawn e then_ r local r1 t1 remote r2 t2);
      assumption.
  - intros v I.
    pose proof (query_traces spawn e r local r1 t1 remote r2 t2 E1 E2) as Q.
    rewrite Forall_forall in Q.
    rewrite app_assoc in I. apply in_app_or in I as [I|[I|[]]].
    + exact (Q _ I).
    + discriminate I.
Qed.

(** X11. An engine built without an identifier, or with one that holds no
    slash between two word characters, never spawns a process: the three
    queries answer [unknown] and [update] calls back with [Failure], all
    without touching git. *)
Theorem without_repository o then_ r :
  (forall s, gitRepo o = Some s -> ~ has_repo s) ->
  getCurrentVersion spawn (new_IvyEngine o) r = (Ok "unknown", r, [])
  /\ getReleaseChannel spawn (new_IvyEngine o) r = (Ok "unknown", r, [])
  /\ getUpstreamVersion spawn (new_IvyEngine o) r = (Ok "unknown", r, [])
  /\ update spawn (new_IvyEngine o) (Some then_) r =
       (fst (then_ "Failure" r), snd (then_ "Failure" r), [Called "Failure"]).
Proof.
  intros N.
  assert (Off : vcsEnabled (new_IvyEngine o) = false).
  { cbn [vcsEnabled new_IvyEngine].
    destruct (init_vcsEnabled o) eqn:E; [|reflexivity].
    apply vcsEnabled_on in E as (s & G & R). destruct (N s G R). }
  repeat split.
  - apply getCurrentVersion_off, Off.
  - apply getReleaseChannel_off, Off.
  - apply getUpstreamVersion_off, Off.
  - unfold update. rewrite Off. cbn [negb call_then].
    destruct (then_ "Failure" r). reflexivity.
Qed.


End GitMore.

(** *** [has], for a member of the guild *)

(** X12. For a user the guild knows, [has] returns a value, and that value
    is [true] exactly when the member holds the permission or the user is
    on the list of superusers. *)
Theorem has_member e user permission guild m :
  member guild user = Some m ->
  exists b,
    has e user permission guild = Ok b
    /\ (b = true <->
        hasPermission m permission = true
        \/ In (user_id user) (superPerms (opts e))).
Proof.
  intros M. unfold has. rewrite M. eexists. split; [reflexivity|].
  rewrite orb_true_iff, existsb_exists. split.
  - intros [P|(id & I & E)]; [left; exact P|right].
    apply String.eqb_eq in E. subst. exact I.
  - intros [P|I]; [left; exact P|right].
    exists (user_id user). split; [exact I|apply String.eqb_refl].
Qed.

End IvyMore.

(** ** Facts about the handler of [ready] *)

Module ReadyFacts.
Import Js Ivy Shape Ready IvyFacts IvyMore.

Section HandlerFacts.

Context {Repo : Type}.
Variable spawn : string -> list string -> Repo -> ProcessRun * Repo.



End HandlerFacts.

End ReadyFacts.

(** ** Facts about the icons *)

Module IconFacts.
Import Icons.

(** X15. The thirteen icons have thirteen different addresses, all of
    them PNG files on the same server directory. *)
Theorem icons_distinct :
  (forall a b, url a = url b -> a = b)
  /\ forall i,
       String.prefix cdn (url i) = true
       /\ String.substring (String.length (url i) - 4) 4 (url i) = ".png".
Proof.
  split.
  - intros a b; destruct a; destruct b; intros E;
      try reflexivity; discriminate E.
  - intros i; destruct i; split; reflexivity.
Qed.

End IconFacts.

(** ** The theorems with hypotheses, on concrete inputs *)

Module Instances.
Import Js Ivy Shape Ready Sample Sample2 IvyFacts IvyMore ReadyFacts.


(** [getUpstreamVersion_argv] for the checkout of [acme/bot] on [main]. *)
Lemma getUpstreamVersion_argv_witness :
  vcsEnabled acme = true
  /\ gitRepo (opts acme) = Some "acme/bot"
  /\ occurs " " "acme/bot" = false
  /\ occurs " " "main" = false
  /\ snd (getUpstreamVersion scripted acme
            [head_at "main"; head_at "abcdef1234567890"]) =
       [Spawn "git" abbrev_ref_HEAD;
        Spawn "git" (ls_remote "acme/bot" "main")].
Proof.
  do 4 (split; [reflexivity|]).
  exact (getUpstreamVersion_argv scripted acme
           [head_at "main"; head_at "abcdef1234567890"] "acme/bot"
           eq_refl eq_refl eq_refl eq_refl).
Defined.

(** [update_pull_success] on a checkout that the pull moves forward. *)
Lemma update_pull_success_witness :
  vcsEnabled acme = true
  /\ toLowerCase "1234567" <> toLowerCase "abcdef1"
  /\ update scripted acme (Some quiet) behind_pull_works =
       (Ok tt, [],
        [Spawn "git" rev_parse_HEAD;
         Spawn "git" abbrev_ref_HEAD;
         Spawn "git" (ls_remote "acme/bot" "main");
         pull;
         Spawn "git" rev_parse_HEAD;
         Called "abcdef1"]).
Proof.
  assert (Ne : toLowerCase "1234567" <> toLowerCase "abcdef1")
    by (vm_compute; discriminate).
  split; [reflexivity|]. split; [exact Ne|].
  apply (update_pull_success scripted acme quiet behind_pull_works
           "1234567" (tl behind_pull_works) [Spawn "git" rev_parse_HEAD]
           "abcdef1" (tl (tl (tl behind_pull_works)))
           [Spawn "git" abbrev_ref_HEAD;
            Spawn "git" (ls_remote "acme/bot" "main")]);
    try reflexivity; try exact Ne.
  vm_compute. discriminate.
Defined.

(** [update_pull_silent] on a pull that prints a line break only. *)
Lemma update_pull_silent_witness :
  vcsEnabled acme = true
  /\ toLowerCase "1234567" <> toLowerCase "abcdef1"
  /\ update scripted acme (Some quiet) behind_pull_silent =
       (Ok tt, [],
        [Spawn "git" rev_parse_HEAD;
         Spawn "git" abbrev_ref_HEAD;
         Spawn "git" (ls_remote "acme/bot" "main");
         pull;
         Called "Failure"]).
Proof.
  assert (Ne : toLowerCase "1234567" <> toLowerCase "abcdef1")
    by (vm_compute; discriminate).
  split; [reflexivity|]. split; [exact Ne|].
  apply (update_pull_silent scripted acme quiet behind_pull_silent
           "1234567" (tl behind_pull_silent) [Spawn "git" rev_parse_HEAD]
           "abcdef1" (tl (tl (tl behind_pull_silent)))
           [Spawn "git" abbrev_ref_HEAD;
            Spawn "git" (ls_remote "acme/bot" "main")]);
    try reflexivity; exact Ne.
Defined.

(** [update_pull_nonzero] on a pull that git refuses. *)
Lemma update_pull_nonzero_witness :
  vcsEnabled acme = true
  /\ toLowerCase "1234567" <> toLowerCase "abcdef1"
  /\ exit_code not_a_command <> Some 0%Z
  /\ update scripted acme None behind_pull_fails =
       (Throw (Reason "git: 'git' is not a git command. See 'git --help'."),
        [],
        [Spawn "git" rev_parse_HEAD;
         Spawn "git" abbrev_ref_HEAD;
         Spawn "git" (ls_remote "acme/bot" "main");
         pull]).
Proof.
  assert (Ne : toLowerCase "1234567" <> toLowerCase "abcdef1")
    by (vm_compute; discriminate).
  assert (Ex : exit_code not_a_command <> Some 0%Z) by discriminate.
  split; [reflexivity|]. split; [exact Ne|]. split; [exact Ex|].
  apply (update_pull_nonzero scripted acme None behind_pull_fails
           "1234567" (tl behind_pull_fails) [Spawn "git" rev_parse_HEAD]
           "abcdef1" (tl (tl (tl behind_pull_fails)))
           [Spawn "git" abbrev_ref_HEAD;
            Spawn "git" (ls_remote "acme/bot" "main")]);
    try reflexivity; try exact Ne; exact Ex.
Defined.

(** [without_repository] for an identifier without a slash. *)
Lemma without_repository_witness :
  (forall s, gitRepo slashless = Some s -> ~ has_repo s)
  /\ getCurrentVersion scripted (new_IvyEngine slashless)
       [head_at "abcdef1234567890"] =
       (Ok "unknown", [head_at "abcdef1234567890"], [])
  /\ update scripted (new_IvyEngine slashless) (Some quiet)
       [head_at "abcdef1234567890"] =
       (Ok tt, [head_at "abcdef1234567890"], [Called "Failure"]).
Proof.
  assert (N : forall s, gitRepo slashless = Some s -> ~ has_repo s).
  { intros s E R. injection E as <-.
    apply GIT_REPO_PATTERN_found in R. vm_compute in R. discriminate R. }
  split; [exact N|].
  destruct (without_repository scripted slashless quiet
              [head_at "abcdef1234567890"] N) as (V & _ & _ & U).
  split; [exact V|exact U].
Defined.

(** [has_member] for a guest who holds no permission. *)
Lemma has_member_witness :
  member home guest = Some (a_member false)
  /\ exists b,
      has acme guest 8 home = Ok b
      /\ (b = true <->
          hasPermission (a_member false) 8 = true
          \/ In (user_id guest) (superPerms (opts acme))).
Proof.
  split; [reflexivity|].
  exact (has_member acme guest 8%Z home (a_member false) eq_refl).
Defined.



(** The handler on that checkout, step by step. *)
Example on_ready_acme :
  on_ready scripted acme None [head_at "main"; head_at "abcdef1234567890"] =
    (Ok tt, [],
     [Git (Spawn "git" abbrev_ref_HEAD);
      Git (Spawn "git" rev_parse_HEAD);
      Info "bot" "Release channel: main, version: abcdef1";
      Info "bot" "Successfully connected to Discord.";
      SetPresence default_presence;
      OnReadyCalled]).
Proof. reflexivity. Qed.

End Instances.

(** ** Facts about the git subsystem when a process may not exit *)

Module LiveFacts.
Import Js JsFacts Shape JsMore Ivy IvyFacts IvyMore Ready.
Import Live.

Section LiveGit.

Context {Repo : Type}.
Variable launch : string -> list string -> Repo -> Ending * Repo.

Lemma execGit_ending args r :
  Live.execGit launch args r =
    (match fst (launch "git" (split " " args) r) with
     | Exited run =>
         match exit_code run with
         | Some 0%Z => Settled (Ok (trim (join (stdout_data run))))
         | _ => Settled (Throw (Reason (trim (join (stderr_data run)))))
         end
     | NoExit => Unsettled
     end,
     snd (launch "git" (split " " args) r),
     [Spawn "git" (split " " args)]).
Proof.
  unfold Live.execGit. destruct (launch "git" (split " " args) r) as [x r1].
  reflexivity.
Qed.

Lemma getCurrentVersion_ending e r :
  vcsEnabled e = true ->
  Live.getCurrentVersion launch e r =
    (match fst (launch "git" rev_parse_HEAD r) with
     | Exited run => Settled (Ok (version_of run))
     | NoExit => Unsettled
     end,
     snd (launch "git" rev_parse_HEAD r),
     [Spawn "git" rev_parse_HEAD]).
Proof.
  intros H. unfold Live.getCurrentVersion, Live.bind, Live.catch_null.
  rewrite H. cbn [negb]. rewrite execGit_ending.
  change (split " " "rev-parse HEAD") with rev_parse_HEAD.
  destruct (fst (launch "git" rev_parse_HEAD r)) as [run|]; [|reflexivity].
  unfold version_of.
  destruct (exit_code run) as [[|c|c]|];
    try (rewrite HASH_PATTERN_null; reflexivity).
  cbn [ToString]. destruct (test HASH_PATTERN _); reflexivity.
Qed.

Lemma getCurrentVersion_disabled e r :
  vcsEnabled e = false ->
  Live.getCurrentVersion launch e r = (Settled (Ok "unknown"), r, []).
Proof. intros H. unfold Live.getCurrentVersion. rewrite H. reflexivity. Qed.

Lemma getReleaseChannel_ending e r :
  vcsEnabled e = true ->
  Live.getReleaseChannel launch e r =
    (match fst (launch "git" abbrev_ref_HEAD r) with
     | Exited run => Settled (Ok (channel_of run))
     | NoExit => Unsettled
     end,
     snd (launch "git" abbrev_ref_HEAD r),
     [Spawn "git" abbrev_ref_HEAD]).
Proof.
  intros H. unfold Live.getReleaseChannel, Live.bind, Live.catch_null.
  rewrite H. cbn [negb]. rewrite execGit_ending.
  change (split " " "rev-parse --abbrev-ref HEAD") with abbrev_ref_HEAD.
  destruct (fst (launch "git" abbrev_ref_HEAD r)) as [run|]; [|reflexivity].
  unfold channel_of.
  destruct (exit_code run) as [[|c|c]|]; try reflexivity.
  cbv zeta. destruct (falsy _ || startsWith "fatal" _); reflexivity.
Qed.

Lemma getReleaseChannel_disabled e r :
  vcsEnabled e = false ->
  Live.getReleaseChannel launch e r = (Settled (Ok "unknown"), r, []).
Proof. intros H. unfold Live.getReleaseChannel. rewrite H. reflexivity. Qed.

Lemma version_of_length run : 5 <= String.length (version_of run) <= 7.
Proof.
  unfold version_of.
  destruct (exit_code run) as [[|c|c]|]; try (simpl; lia).
  destruct (test HASH_PATTERN _) eqn:T; [|simpl; lia].
  apply HASH_PATTERN_finds, has_hash_length in T.
  rewrite substring_0_7, prefix_length. lia.
Qed.

Lemma channel_of_clean run :
  channel_of run <> ""
  /\ startsWith "fatal" (channel_of run) = false
  /\ trim (channel_of run) = channel_of run.
Proof.
  unfold channel_of.
  destruct (exit_code run) as [[|c|c]|];
    try (repeat split; discriminate).
  cbv zeta. set (out := trim (join (stdout_data run))).
  destruct (falsy out) eqn:F; [repeat split; discriminate|].
  cbn [orb]. destruct (startsWith "fatal" out) eqn:S;
    [repeat split; discriminate|].
  repeat split; auto.
  - intros E. rewrite E in F. discriminate.
  - apply trim_idem.
Qed.

Lemma upstream_of_length run : 1 <= String.length (upstream_of run) <= 7.
Proof.
  unfold upstream_of.
  destruct (exit_code run) as [[|c|c]|]; try (simpl; lia).
  cbv zeta. destruct (falsy _) eqn:F; [simpl; lia|].
  apply substr_0_7_length. intros E. rewrite E in F. discriminate.
Qed.


(** X3. [getCurrentVersion] is never rejected and spawns at most one
    process.  With version control off, or when the process it spawned
    ends with an exit event, it is fulfilled, with a string of 5 to 7
    characters; when that process ends without an exit event it is never
    settled. *)
Theorem getCurrentVersion_settles e r :
  exists s r1 t,
    Live.getCurrentVersion launch e r = (s, r1, t)
    /\ List.length t <= 1
    /\ match s with
       | Settled (Ok v) => 5 <= String.length v <= 7
       | Settled (Throw _) => False
       | Unsettled =>
           vcsEnabled e = true /\ fst (launch "git" rev_parse_HEAD r) = NoExit
       end
    /\ (vcsEnabled e = true ->
        fst (launch "git" rev_parse_HEAD r) = NoExit -> s = Unsettled).
Proof.
  destruct (vcsEnabled e) eqn:H.
  - rewrite (getCurrentVersion_ending e r H).
    do 3 eexists. split; [reflexivity|]. split; [simpl; lia|].
    destruct (fst (launch "git" rev_parse_HEAD r)) as [run|].
    + split; [apply version_of_length|discriminate].
    + auto.
  - rewrite (getCurrentVersion_disabled e r H).
    do 3 eexists. split; [reflexivity|]. split; [simpl; lia|].
    split; [simpl; lia|discriminate].
Qed.

(** X4. [getReleaseChannel] is never rejected and spawns at most one
    process.  With version control off, or when the process it spawned
    ends with an exit event, it is fulfilled with a string that is not
    empty, does not begin with [fatal] and carries no white space at
    either end, and a trimmed output of that kind from an exit with 0 is
    the value; when the process ends without an exit event it is never
    settled. *)
Theorem getReleaseChannel_settles e r :
  exists s r1 t,
    Live.getReleaseChannel launch e r = (s, r1, t)
    /\ List.length t <= 1
    /\ match s with
       | Settled (Ok v) =>
           v <> "" /\ startsWith "fatal" v = false /\ trim v = v
       | Settled (Throw _) => False
       | Unsettled =>
           vcsEnabled e = true
           /\ fst (launch "git" abbrev_ref_HEAD r) = NoExit
       end
    /\ (vcsEnabled e = true ->
        match fst (launch "git" abbrev_ref_HEAD r) with
        | NoExit => s = Unsettled
        | Exited run =>
            let out := trim (join (stdout_data run)) in
            exit_code run = Some 0%Z -> out <> "" ->
            startsWith "fatal" out = false ->
            s = Settled (Ok out)
        end).
Proof.
  destruct (vcsEnabled e) eqn:H.
  - rewrite (getReleaseChannel_ending e r H).
    do 3 eexists. split; [reflexivity|]. split; [simpl; lia|].
    destruct (fst (launch "git" abbrev_ref_HEAD r)) as [run|].
    + split; [apply channel_of_clean|].
      intros _. cbv zeta. intros Ex N S. unfold channel_of. rewrite Ex.
      cbv zeta. rewrite S.
      destruct (trim (join (stdout_data run))); [congruence|reflexivity].
    + auto.
  - rewrite (getReleaseChannel_disabled e r H).
    do 3 eexists. split; [reflexivity|]. split; [simpl; lia|].
    split; [repeat split; discriminate|discriminate].
Qed.

(** X16. [execGit] spawns git once.  When the process ends with an exit
    event the promise is settled with a string that carries no white
    space at either end: fulfilled when the exit code is 0, rejected with
    such a string as the reason, never with an error of the runtime,
    otherwise.  When the process ends without an exit event the promise
    is never settled. *)
Theorem execGit_settles args r :
  exists s,
    Live.execGit launch args r =
      (s, snd (launch "git" (split " " args) r),
       [Spawn "git" (split " " args)])
    /\ match fst (launch "git" (split " " args) r) with
       | NoExit => s = Unsettled
       | Exited run =>
           match s with
           | Settled (Ok v) => trim v = v /\ exit_code run = Some 0%Z
           | Settled (Throw (Reason text)) =>
               trim text = text /\ exit_code run <> Some 0%Z
           | _ => False
           end
       end.
Proof.
  rewrite execGit_ending. eexists. split; [reflexivity|].
  destruct (fst (launch "git" (split " " args) r)) as [run|]; [|reflexivity].
  destruct (exit_code run) as [[|c|c]|];
    (split; [apply trim_idem|congruence]).
Qed.

Lemma getUpstreamVersion_disabled e r :
  vcsEnabled e = false ->
  Live.getUpstreamVersion launch e r = (Settled (Ok "unknown"), r, []).
Proof. intros H. unfold Live.getUpstreamVersion. rewrite H. reflexivity. Qed.

Lemma getUpstreamVersion_ending e r :
  vcsEnabled e = true ->
  Live.getUpstreamVersion launch e r =
    match fst (launch "git" abbrev_ref_HEAD r) with
    | NoExit =>
        (Unsettled, snd (launch "git" abbrev_ref_HEAD r),
         [Spawn "git" abbrev_ref_HEAD])
    | Exited run1 =>
        let argv :=
          split " " ("ls-remote git@github.com:"
                       ++ ToStringU (gitRepo (opts e))
                       ++ ".git | grep refs/heads/" ++ channel_of run1
                       ++ " | cut -f 1") in
        (match fst (launch "git" argv (snd (launch "git" abbrev_ref_HEAD r))) with
         | Exited run2 => Settled (Ok (upstream_of run2))
         | NoExit => Unsettled
         end,
         snd (launch "git" argv (snd (launch "git" abbrev_ref_HEAD r))),
         [Spawn "git" abbrev_ref_HEAD; Spawn "git" argv])
    end.
Proof.
  intros H. unfold Live.getUpstreamVersion. rewrite H. cbn [negb].
  unfold Live.bind at 1. rewrite (getReleaseChannel_ending e r H).
  destruct (fst (launch "git" abbrev_ref_HEAD r)) as [run1|]; [|reflexivity].
  cbv zeta. unfold Live.bind, Live.catch_null. rewrite execGit_ending.
  destruct (fst (launch "git" _ _)) as [run2|]; [|reflexivity].
  unfold upstream_of.
  destruct (exit_code run2) as [[|c|c]|]; try reflexivity.
  cbv zeta. destruct (falsy _); reflexivity.
Qed.

(** X5. [getUpstreamVersion] is never rejected.  With version control off
    it spawns nothing and answers [unknown].  With version control on it
    spawns the branch query and, once that process has exited, the remote
    query; when both end with an exit event it is fulfilled with a string
    of 1 to 7 characters read from the second run alone (the first 7
    characters of any output that is not empty, [unknown] otherwise);
    when either ends without an exit event it is never settled, and after
    a branch query that does not exit the remote query is not spawned. *)
Theorem getUpstreamVersion_settles e r :
  exists s r1 t,
    Live.getUpstreamVersion launch e r = (s, r1, t)
    /\ match s with
       | Settled (Ok v) => 1 <= String.length v <= 7
       | Settled (Throw _) => False
       | Unsettled => vcsEnabled e = true
       end
    /\ (vcsEnabled e = false -> s = Settled (Ok "unknown") /\ t = [])
    /\ (vcsEnabled e = true ->
        match fst (launch "git" abbrev_ref_HEAD r) with
        | NoExit => s = Unsettled /\ t = [Spawn "git" abbrev_ref_HEAD]
        | Exited _ =>
            exists argv,
              t = [Spawn "git" abbrev_ref_HEAD; Spawn "git" argv]
              /\ match fst (launch "git" argv
                             (snd (launch "git" abbrev_ref_HEAD r))) with
                 | NoExit => s = Unsettled
                 | Exited run2 => s = Settled (Ok (upstream_of run2))
                 end
        end).
Proof.
  destruct (vcsEnabled e) eqn:H.
  - rewrite (getUpstreamVersion_ending e r H).
    destruct (fst (launch "git" abbrev_ref_HEAD r)) as [run1|].
    + cbv zeta. do 3 eexists. split; [reflexivity|].
      split; [|split; [discriminate|]].
      * destruct (fst (launch "git" _ _)) as [run2|];
          [apply upstream_of_length|reflexivity].
      * intros _. eexists. split; [reflexivity|].
        destruct (fst (launch "git" _ _)); reflexivity.
    + do 3 eexists. split; [reflexivity|].
      split; [reflexivity|]. split; [discriminate|auto].
  - rewrite (getUpstreamVersion_disabled e r H).
    do 3 eexists. split; [reflexivity|]. split; [simpl; lia|].
    split; [auto|discriminate].
Qed.

(** X13. The handler of [ready] is never rejected.  With version control
    off it spawns nothing, and with version control on it spawns the
    branch query and then the commit query; when every process it spawned
    has ended with an exit event it completes, and it ends with the line
    that the bot is connected, the presence (the one supplied, else the
    default one) and one call of [onReady], its last step.  When one of
    the two processes ends without an exit event the handler never gets
    past that query: it logs nothing, sets no presence and does not call
    [onReady]. *)
Theorem on_ready_settles e presence r :
  let closing :=
    [Info (name (opts e)) "Successfully connected to Discord.";
     SetPresence (match presence with
                  | Some p => p
                  | None => default_presence
                  end);
     OnReadyCalled] in
  exists s r1 t,
    Live.on_ready launch e presence r = (s, r1, t)
    /\ (vcsEnabled e = false -> s = Settled (Ok tt) /\ r1 = r /\ t = closing)
    /\ (vcsEnabled e = true ->
        match fst (launch "git" abbrev_ref_HEAD r) with
        | NoExit => s = Unsettled /\ t = [Git (Spawn "git" abbrev_ref_HEAD)]
        | Exited run1 =>
            match fst (launch "git" rev_parse_HEAD
                         (snd (launch "git" abbrev_ref_HEAD r))) with
            | NoExit =>
                s = Unsettled
                /\ t = [Git (Spawn "git" abbrev_ref_HEAD);
                        Git (Spawn "git" rev_parse_HEAD)]
            | Exited run2 =>
                s = Settled (Ok tt)
                /\ t = ([Git (Spawn "git" abbrev_ref_HEAD);
                         Git (Spawn "git" rev_parse_HEAD);
                         Info (name (opts e))
                              ("Release channel: " ++ channel_of run1
                                 ++ ", version: " ++ version_of run2)]
                          ++ closing)%list
            end
        end)
    /\ match s with
       | Settled (Ok _) =>
           exists t0, t = (t0 ++ closing)%list /\ ~ In OnReadyCalled t0
       | Settled (Throw _) => False
       | Unsettled => forallb is_git t = true
       end.
Proof.
  cbv zeta. unfold Live.on_ready. destruct (vcsEnabled e) eqn:H.
  - rewrite (getReleaseChannel_ending e r H).
    destruct (fst (launch "git" abbrev_ref_HEAD r)) as [run1|].
    + rewrite (getCurrentVersion_ending e _ H).
      destruct (fst (launch "git" rev_parse_HEAD _)) as [run2|].
      * do 3 eexists. split; [reflexivity|]. split; [discriminate|].
        split; [auto|].
        eexists (_ :: _ :: _ :: nil). split; [reflexivity|].
        intros [I|[I|[I|[]]]]; discriminate I.
      * do 3 eexists. split; [reflexivity|]. split; [discriminate|].
        split; [auto|reflexivity].
    + do 3 eexists. split; [reflexivity|]. split; [discriminate|].
      split; [auto|reflexivity].
  - do 3 eexists. split; [reflexivity|]. split; [auto|].
    split; [discriminate|]. exists []. auto.
Qed.

End LiveGit.

(** *** The runs in which every process exits

    Under an oracle whose processes all exit, every operation settles,
    and settles as the module [Ivy] says. *)

Section Exiting.

Context {Repo : Type}.
Variable spawn : string -> list string -> Repo -> ProcessRun * Repo.

Lemma exiting_fst command args r :
  fst (exiting spawn command args r) = Exited (fst (spawn command args r)).
Proof. unfold exiting. destruct (spawn command args r). reflexivity. Qed.

Lemma exiting_snd command args r :
  snd (exiting spawn command args r) = snd (spawn command args r).
Proof. unfold exiting. destruct (spawn command args r). reflexivity. Qed.

Lemma execGit_exiting args r :
  Live.execGit (exiting spawn) args r = settle (Ivy.execGit spawn args r).
Proof.
  rewrite execGit_ending, execGit_run, exiting_fst, exiting_snd.
  cbn [settle]. destruct (exit_code _) as [[|c|c]|]; reflexivity.
Qed.

Lemma getCurrentVersion_exiting e r :
  Live.getCurrentVersion (exiting spawn) e r =
    settle (Ivy.getCurrentVersion spawn e r).
Proof.
  destruct (vcsEnabled e) eqn:H.
  - rewrite (getCurrentVersion_ending _ e r H),
      (getCurrentVersion_run spawn e r H), exiting_fst, exiting_snd.
    reflexivity.
  - rewrite (getCurrentVersion_disabled _ e r H),
      (getCurrentVersion_off spawn e r H). reflexivity.
Qed.

Lemma getReleaseChannel_exiting e r :
  Live.getReleaseChannel (exiting spawn) e r =
    settle (Ivy.getReleaseChannel spawn e r).
Proof.
  destruct (vcsEnabled e) eqn:H.
  - rewrite (getReleaseChannel_ending _ e r H),
      (getReleaseChannel_run spawn e r H), exiting_fst, exiting_snd.
    reflexivity.
  - rewrite (getReleaseChannel_disabled _ e r H),
      (getReleaseChannel_off spawn e r H). reflexivity.
Qed.

Lemma getUpstreamVersion_exiting e r :
  Live.getUpstreamVersion (exiting spawn) e r =
    settle (Ivy.getUpstreamVersion spawn e r).
Proof.
  destruct (vcsEnabled e) eqn:H.
  - rewrite (getUpstreamVersion_ending _ e r H),
      (getUpstreamVersion_run spawn e r H _ eq_refl).
    rewrite exiting_fst. cbv zeta. rewrite !exiting_snd, exiting_fst.
    reflexivity.
  - rewrite (getUpstreamVersion_disabled _ e r H),
      (getUpstreamVersion_off spawn e r H). reflexivity.
Qed.

Lemma call_then_exiting (then_ : option (Callback Repo)) v r :
  Live.call_then then_ v r = settle (Ivy.call_then then_ v r).
Proof.
  destruct then_ as [f|]; [|reflexivity].
  cbn [Live.call_then Ivy.call_then]. destruct (f v r). reflexivity.
Qed.

Lemma update_exiting e then_ r :
  Live.update (exiting spawn) e then_ r = settle (Ivy.update spawn e then_ r).
Proof.
  unfold Live.update, Ivy.update. destruct (vcsEnabled e) eqn:H; cbn [negb].
  2:{ apply call_then_exiting. }
  unfold Live.bind, Ivy.bind.
  rewrite getCurrentVersion_exiting.
  destruct (Ivy.getCurrentVersion spawn e r) as [[[local|err] r1] t1];
    cbn [settle]; [|reflexivity].
  rewrite getUpstreamVersion_exiting.
  destruct (Ivy.getUpstreamVersion spawn e r1) as [[[remote|err] r2] t2];
    cbn [settle]; [|reflexivity].
  destruct (String.eqb (toLowerCase local) (toLowerCase remote)).
  { rewrite call_then_exiting.
    destruct (Ivy.call_then then_ local r2) as [[o r3] t3]. reflexivity. }
  rewrite execGit_exiting.
  destruct (Ivy.execGit spawn "git pull" r2) as [[[res|err] r3] t3];
    cbn [settle]; [|reflexivity].
  destruct (falsy res).
  { rewrite call_then_exiting.
    destruct (Ivy.call_then then_ "Failure" r3) as [[o r4] t4]. reflexivity. }
  rewrite getCurrentVersion_exiting.
  destruct (Ivy.getCurrentVersion spawn e r3) as [[[version|err] r4] t4];
    cbn [settle]; [|reflexivity].
  rewrite call_then_exiting.
  destruct (Ivy.call_then then_ version r4) as [[o r5] t5]. reflexivity.
Qed.

Lemma on_ready_exiting e presence r :
  Live.on_ready (exiting spawn) e presence r =
    settle (Ready.on_ready spawn e presence r).
Proof.
  unfold Live.on_ready, Ready.on_ready.
  destruct (vcsEnabled e); [|reflexivity].
  rewrite getReleaseChannel_exiting.
  destruct (Ivy.getReleaseChannel spawn e r) as [[[channel|err] r1] t1];
    cbn [settle]; [|reflexivity].
  rewrite getCurrentVersion_exiting.
  destruct (Ivy.getCurrentVersion spawn e r1) as [[[version|err] r2] t2];
    reflexivity.
Qed.

End Exiting.

End LiveFacts.

(** ** The theorems about processes that may not exit, on concrete inputs *)

Module LiveInstances.
Import Js Ivy Shape Sample LiveFacts.


End LiveInstances.
